(** * APM tracker: the event ring buffer, its persistence and the rate query

    A shallow embedding of [apm_tracker.h] and [apm_tracker.c]: the global
    event buffer with its two counters, [add_event],
    [calculate_apm_with_time], [save_data] and [load_data], on the byte
    image of the data file.

    Conventions.
    - [int] is 32 bits, [time_t] is 64 bits, both two's complement; the data
      file is written with the host's little-endian layout, a [FileHeader]
      being three [uint32_t] without padding (12 bytes) and an [EventData]
      one [time_t] (8 bytes).
    - The globals [event_buffer], [event_count], [event_index] and the file
      [DATA_FILE] form the [world] that every function receives and
      returns.
    - The event buffer is a map from slot numbers to timestamps.  The
      allocation made in [main] covers the slots [0 .. MAX_EVENTS - 1];
      freshly allocated slots hold whatever the map held there. *)

From Stdlib Require Import ZArith List Lia Bool.
From Stdlib Require Import Floats.SpecFloat.
From coqutil Require Import Byte Word.LittleEndianList.
Import ListNotations.
Local Open Scope Z_scope.

(** ** apm_tracker.h *)

(** [#define MAX_EVENTS 7 * 24 * 60 * 60]: the body of the macro carries no
    parentheses.  Wherever the macro stands as a whole operand of [<], [<=],
    [>], [-] or [+], or as the left factor of [MAX_EVENTS * sizeof(..)], the
    expansion has the value 604800. *)
Definition MAX_EVENTS : Z := 7 * 24 * 60 * 60.

(** [x % MAX_EVENTS] expands to [x % 7 * 24 * 60 * 60].  In C [%] and [*]
    have one precedence and associate to the left, so this is
    [(((x % 7) * 24) * 60) * 60]; [%] truncates towards zero ([Z.rem]).
    The macro is used this way in [add_event] (twice), in the second loop of
    [calculate_apm_with_time] and in the loop of [save_data]. *)
Definition mod_MAX_EVENTS (x : Z) : Z := Z.rem x 7 * 24 * 60 * 60.

Definition time_t := Z.

(** [typedef struct { uint32_t magic; uint32_t version; uint32_t num_events; } FileHeader;] *)
Record FileHeader : Type := mkFileHeader {
  magic : Z;
  version : Z;
  num_events : Z
}.

(** [typedef struct { time_t timestamp; } EventData;] has the one field
    [timestamp]: an [EventData] is identified with its timestamp. *)
Definition EventData := time_t.

(** Machine integers. *)
Definition INT_MAX : Z := 2147483647.
Definition INT_MIN : Z := - 2147483648.
Definition int_range (z : Z) : Prop := INT_MIN <= z <= INT_MAX.
Definition time_t_range (z : Z) : Prop := - 2 ^ 63 <= z < 2 ^ 63.

(** Two's complement reduction to a signed integer of [bits] bits: what a
    conversion to [int] or [time_t] yields, and what an overflowing signed
    operation leaves in the register. *)
Definition swrap (bits : Z) (z : Z) : Z :=
  (z + 2 ^ (bits - 1)) mod 2 ^ bits - 2 ^ (bits - 1).

Definition to_int (z : Z) : Z := swrap 32 z.
Definition to_time_t (z : Z) : time_t := swrap 64 z.

(** ** apm_tracker.c: global state *)

Definition buffer := Z -> EventData.

Record world : Type := mkWorld {
  event_buffer : option buffer;     (* EventData *event_buffer; None is NULL *)
  event_count : Z;                  (* int event_count *)
  event_index : Z;                  (* int event_index *)
  data_file : option (list byte);   (* contents of DATA_FILE; None: no such file *)
  data_writable : bool              (* the data directory can be made and
                                       fopen(DATA_FILE, "wb") succeeds *)
}.

(** The process right after [event_buffer = malloc(MAX_EVENTS * sizeof(EventData))]
    in [main]: the counters still have their static initial value 0. *)
Definition fresh_world (mem : buffer) (file : option (list byte)) (wr : bool) : world :=
  mkWorld (Some mem) 0 0 file wr.

Definition in_allocation (i : Z) : bool := (0 <=? i) && (i <? MAX_EVENTS).

(** [event_buffer[i].timestamp = v] *)
Definition write_slot (buf : buffer) (i : Z) (v : time_t) : buffer :=
  fun j => if j =? i then v else buf j.

Definition set_events (w : world) (buf : buffer) (count index : Z) : world :=
  mkWorld (Some buf) count index (data_file w) (data_writable w).

(** ** add_event

    [now] is the value of [time(NULL)].  The result is [None] where the C
    program has no defined behaviour: the buffer is NULL, or the slot
    written lies outside the allocation. *)
Definition add_event (now : time_t) (w : world) : option world :=
  match event_buffer w with
  | None => None
  | Some buf =>
      if in_allocation (event_index w) then
        if event_count w <? MAX_EVENTS then
          Some (set_events w (write_slot buf (event_index w) now)
                  (event_count w + 1)
                  (mod_MAX_EVENTS (event_index w + 1)))
        else
          Some (set_events w (write_slot buf (event_index w) now)
                  (event_count w)
                  (mod_MAX_EVENTS (event_index w + 1)))
      else None
  end.

(** One call of [add_event] for each timestamp of [ts], in order. *)
Fixpoint add_events (ts : list time_t) (w : world) : option world :=
  match ts with
  | [] => Some w
  | now :: rest =>
      match add_event now w with
      | Some w' => add_events rest w'
      | None => None
      end
  end.

(** ** calculate_apm_with_time *)

(** [(float)n] and the [float] quotient, in IEEE binary32 (24 bits of
    precision, exponents up to 128), rounding to nearest even. *)
Definition float_of_int (n : Z) : spec_float := binary_normalize 24 128 n 0 false.
Definition float_div (x y : spec_float) : spec_float := SFdiv 24 128 x y.

(** [time_t cutoff = current_time - (minutes * 60);] the product is an [int]. *)
Definition cutoff_time (minutes : Z) (current_time : time_t) : time_t :=
  to_time_t (current_time - to_int (minutes * 60)).

(** [for (int i = ..; i < ..; i++) if (event_buffer[slot i].timestamp >= cutoff) count++;]
    with [n] iterations left. *)
Fixpoint count_loop (buf : buffer) (slot : Z -> Z) (cutoff : time_t)
    (n : nat) (i : Z) (count : Z) : Z :=
  match n with
  | O => count
  | S n' =>
      count_loop buf slot cutoff n' (i + 1)
        (if cutoff <=? buf (slot i) then count + 1 else count)
  end.

Definition calculate_apm_with_time (minutes : Z) (current_time : time_t)
    (w : world) : spec_float :=
  match event_buffer w with
  | None => S754_zero false
  | Some buf =>
      if event_count w =? 0 then S754_zero false
      else
        let cutoff := cutoff_time minutes current_time in
        let count :=
          if event_count w <=? MAX_EVENTS then
            count_loop buf (fun i => i) cutoff (Z.to_nat (event_count w)) 0 0
          else
            count_loop buf
              (fun i => mod_MAX_EVENTS (event_index w - MAX_EVENTS + i + MAX_EVENTS))
              cutoff (Z.to_nat MAX_EVENTS) 0 0
        in
        float_div (float_of_int count) (float_of_int minutes)
  end.

(** ** save_data *)

Definition DATA_MAGIC : Z := 0x00415041.

(** The slot that [save_data] reads on iteration [i]:
    [(event_index - event_count + i + MAX_EVENTS) % MAX_EVENTS]. *)
Definition chronological_slot (w : world) (i : Z) : Z :=
  mod_MAX_EVENTS (event_index w - event_count w + i + MAX_EVENTS).

(** The records visited by a loop [for (i = ..; ..; i++) .. event_buffer[slot i] ..]
    with [n] iterations left. *)
Fixpoint view_loop (buf : buffer) (slot : Z -> Z) (n : nat) (i : Z) : list time_t :=
  match n with
  | O => []
  | S n' => buf (slot i) :: view_loop buf slot n' (i + 1)
  end.

(** The oldest-to-newest reconstruction of [save_data]:
    [for (int i = 0; i < event_count && i < MAX_EVENTS; i++)]. *)
Definition chronological_view (w : world) : list time_t :=
  match event_buffer w with
  | None => []
  | Some buf =>
      view_loop buf (chronological_slot w)
        (Z.to_nat (Z.min (event_count w) MAX_EVENTS)) 0
  end.

(** [fwrite(&header, sizeof(header), 1, file)] and
    [fwrite(&event_buffer[idx], sizeof(EventData), 1, file)]. *)
Definition encode_header (header : FileHeader) : list byte :=
  le_split 4 (magic header) ++ le_split 4 (version header)
    ++ le_split 4 (num_events header).

Definition encode_event (t : time_t) : list byte := le_split 8 t.

(** The messages of [perror] on the failing paths are not part of the
    model; a write that was opened is taken to complete. *)
Definition save_data (w : world) : world :=
  match event_buffer w with
  | None => w
  | Some _ =>
      if event_count w =? 0 then w
      else if data_writable w then
        mkWorld (event_buffer w) (event_count w) (event_index w)
          (Some (encode_header (mkFileHeader DATA_MAGIC 1 (event_count w))
                 ++ flat_map encode_event (chronological_view w)))
          (data_writable w)
      else w
  end.

(** ** load_data *)

(** What one call of [load_data] prints. *)
Inductive report : Type :=
| quiet                                (* nothing: no data file, start fresh *)
| err_not_allocated                    (* "Event buffer not allocated" *)
| err_read_header                      (* perror "Failed to read file header" *)
| err_invalid_format                   (* "Invalid data file format" *)
| err_unsupported_version (v : Z)      (* "Unsupported data file version: %u" *)
| err_alloc                            (* perror "Failed to allocate memory for loading data" *)
| loaded (short_read : bool) (n : Z).  (* perror "Failed to read event data" when
                                          [short_read]; then "Loaded %d events from data file" *)

(** A report through which the file is rejected for its format. *)
Definition format_error (r : report) : bool :=
  match r with
  | err_invalid_format | err_unsupported_version _ => true
  | _ => false
  end.

(** [fread(&header, sizeof(header), 1, file)]: the header and the rest of
    the file, or [None] when fewer than 12 bytes are there. *)
Definition read_header (bytes : list byte) : option (FileHeader * list byte) :=
  if (12 <=? length bytes)%nat then
    Some (mkFileHeader
            (le_combine (firstn 4 bytes))
            (le_combine (firstn 4 (skipn 4 bytes)))
            (le_combine (firstn 4 (skipn 8 bytes))),
          skipn 12 bytes)
  else None.

Definition decode_event (bs : list byte) : time_t := to_time_t (le_combine bs).

(** The reading loop: at most [n] records, stopping at the first [fread]
    that does not find a whole record. *)
Fixpoint read_events (n : nat) (body : list byte) : list time_t :=
  match n with
  | O => []
  | S n' =>
      if (8 <=? length body)%nat then
        decode_event (firstn 8 body) :: read_events n' (skipn 8 body)
      else []
  end.

(** [for (int i = 0; i < ..; i++) event_buffer[i] = temp_buffer[start + i];]
    with [n] iterations left. *)
Fixpoint copy_loop (temp : list time_t) (start : Z) (n : nat) (i : Z)
    (buf : buffer) : buffer :=
  match n with
  | O => buf
  | S n' =>
      copy_loop temp start n' (i + 1)
        (write_slot buf i (nth (Z.to_nat (start + i)) temp 0))
  end.

(** [malloc(to_read * sizeof(EventData))] is taken to succeed for every
    [to_read >= 0] (at most 604800 records) and to fail for a negative
    [to_read], whose conversion to [size_t] asks for more than 2^63 bytes. *)
Definition load_data (w : world) : world * report :=
  match event_buffer w with
  | None => (w, err_not_allocated)
  | Some buf =>
      match data_file w with
      | None => (w, quiet)
      | Some bytes =>
          match read_header bytes with
          | None => (w, err_read_header)
          | Some (header, body) =>
              if negb (magic header =? DATA_MAGIC) then (w, err_invalid_format)
              else if negb (version header =? 1) then
                (w, err_unsupported_version (version header))
              else
                let to_read := to_int (num_events header) in
                let to_read := if to_read >? MAX_EVENTS then MAX_EVENTS else to_read in
                if to_read <? 0 then (w, err_alloc)
                else
                  let temp := read_events (Z.to_nat to_read) body in
                  let events_read := Z.of_nat (length temp) in
                  let short := events_read <? to_read in
                  if events_read <=? MAX_EVENTS then
                    (set_events w
                       (copy_loop temp 0 (Z.to_nat events_read) 0 buf)
                       events_read events_read,
                     loaded short events_read)
                  else
                    (set_events w
                       (copy_loop temp (events_read - MAX_EVENTS)
                          (Z.to_nat MAX_EVENTS) 0 buf)
                       MAX_EVENTS 0,
                     loaded short MAX_EVENTS)
          end
      end
  end.

(** The records a store holds when read slot by slot from slot 0, the layout
    [load_data] writes and the first loop of [calculate_apm_with_time] reads. *)
Definition held_records (w : world) : list time_t :=
  match event_buffer w with
  | None => []
  | Some buf => view_loop buf (fun i => i) (Z.to_nat (event_count w)) 0
  end.


(** ** Auxiliary notions for the statements *)

(** The cursor of a world that only [add_event] has touched since start. *)
Definition cursor_toggles (w : world) : Prop :=
  event_index w = 0 \/ event_index w = 86400.

(** The capacity as a number of loop iterations. *)
Definition capacity : nat := Z.to_nat MAX_EVENTS.

(** The timestamps 0, 1, .., n-1: a strictly increasing run of [n] events. *)
Definition ticks (n : nat) : list time_t := map Z.of_nat (seq 0 n).

(** The image of a data file whose header declares [declared] records and
    whose body holds the records [ts]. *)
Definition file_image (declared : Z) (ts : list time_t) : list byte :=
  encode_header (mkFileHeader DATA_MAGIC 1 declared) ++ flat_map encode_event ts.

(** The number of records of a sequence that are not older than [cutoff]. *)
Definition count_since (cutoff : time_t) (records : list time_t) : Z :=
  Z.of_nat (length (filter (fun t => cutoff <=? t) records)).

(** The stores of [test_calculate_apm]: 60 records, one per second
    ([event_buffer[i].timestamp = now - i]) or one per minute
    ([now - i * 60]), with [event_count = 60] and [event_index = 60]. *)
Definition last_minute_store (now : time_t) : world :=
  mkWorld (Some (fun i => now - i)) 60 60 None true.

Definition last_hour_store (now : time_t) : world :=
  mkWorld (Some (fun i => now - i * 60)) 60 60 None true.

(** The records of a sequence inside the closed window [cutoff .. now], and
    those later than [now]. *)
Definition count_within (cutoff now : time_t) (records : list time_t) : Z :=
  Z.of_nat (length (filter (fun t => (cutoff <=? t) && (t <=? now)) records)).

Definition count_after (now : time_t) (records : list time_t) : Z :=
  Z.of_nat (length (filter (fun t => now <? t) records)).

(** The exact value of a finite [float], as an integer: [f] is [z]. *)
Definition float_is_integer (f : spec_float) (z : Z) : Prop :=
  match f with
  | S754_zero _ => z = 0
  | S754_finite s m e =>
      e <= 0 /\ (if s then Z.neg m else Z.pos m) = z * 2 ^ (- e)
  | _ => False
  end.

(** ** apm_tracker.c: the rest of the process state and cleanup *)

Definition MAX_DEVICES : Z := 32.

(** The globals of [apm_tracker.c] beside the event store, and the table of
    the descriptors that the process holds open. *)
Record process : Type := mkProcess {
  globals : world;
  input_fds : Z -> Z;          (* int input_fds[MAX_DEVICES] *)
  num_input_fds : Z;           (* int num_input_fds *)
  open_descriptors : list Z    (* the descriptors open in the process *)
}.

(** [close(fd)]: the descriptor leaves the table; closing a descriptor that
    is not open fails with EBADF and changes nothing. *)
Definition close (fd : Z) (table : list Z) : list Z := remove Z.eq_dec fd table.

(** [for (int i = 0; i < num_input_fds; i++) close(input_fds[i]);] with [n]
    iterations left. *)
Fixpoint close_loop (fds : Z -> Z) (n : nat) (i : Z) (table : list Z) : list Z :=
  match n with
  | O => table
  | S n' => close_loop fds n' (i + 1) (close (fds i) table)
  end.

(** [cleanup]: save, close the input devices, reset their count, free the
    buffer and set the pointer to NULL.  The line printed on stdout is not
    part of the model. *)
Definition cleanup (p : process) : process :=
  let w := save_data (globals p) in
  mkProcess
    (mkWorld None (event_count w) (event_index w) (data_file w) (data_writable w))
    (input_fds p)
    0
    (close_loop (input_fds p) (Z.to_nat (num_input_fds p)) 0 (open_descriptors p)).

(** ** main.c: the events that count as actions *)

(** [struct input_event] of [<linux/input.h>], without its time stamp. *)
Record input_event : Type := mkInputEvent {
  ev_type : Z;
  ev_code : Z;
  ev_value : Z
}.

(** The test of the main loop,
    [(type == EV_KEY && value == 1) || (type == EV_KEY && code == BTN_LEFT && value == 1)].
    [EV_KEY] and [BTN_LEFT] are constants of [<linux/input.h>], which is not
    part of the repository: they are parameters. *)
Definition is_action (EV_KEY BTN_LEFT : Z) (e : input_event) : bool :=
  ((ev_type e =? EV_KEY) && (ev_value e =? 1))
  || ((ev_type e =? EV_KEY) && (ev_code e =? BTN_LEFT) && (ev_value e =? 1)).

(** [for (int j = 0; j < num_events; j++) if (..) add_event();] over the
    events of one [read]; each event comes with the value [time(NULL)] has
    when it is processed. *)
Fixpoint process_events (EV_KEY BTN_LEFT : Z)
    (events : list (input_event * time_t)) (w : world) : option world :=
  match events with
  | [] => Some w
  | (e, now) :: rest =>
      if is_action EV_KEY BTN_LEFT e then
        match add_event now w with
        | Some w' => process_events EV_KEY BTN_LEFT rest w'
        | None => None
        end
      else process_events EV_KEY BTN_LEFT rest w
  end.

(** ** apm_stats.c *)

(** The array [events] that [main] fills from the file. *)
Definition events_array (records : list time_t) : buffer :=
  fun i => nth (Z.to_nat i) records 0.

(** [calculate_apm_from_data(events, count, minutes)]; [now] is the value of
    [time(NULL)], read only when [count] is not 0. *)
Definition calculate_apm_from_data (events : buffer) (count minutes : Z)
    (now : time_t) : spec_float :=
  if count =? 0 then S754_zero false
  else
    let cutoff := cutoff_time minutes now in
    let action_count :=
      count_loop events (fun i => i) cutoff (Z.to_nat count) 0 0 in
    float_div (float_of_int action_count) (float_of_int minutes).

(** The ways [main] of [apm_stats.c] ends with [EXIT_FAILURE]. *)
Inductive stats_failure : Type :=
| cannot_open_data_file        (* perror "Cannot open data file" *)
| cannot_read_header           (* perror "Cannot read header" *)
| invalid_data_file_format     (* "Invalid data file format" *)
| cannot_allocate_memory       (* perror "Cannot allocate memory" *)
| cannot_read_events.          (* perror "Cannot read events" *)

(** The six rates [main] prints. *)
Record stats_report : Type := mkStatsReport {
  apm_1m : spec_float;
  apm_5m : spec_float;
  apm_15m : spec_float;
  apm_1h : spec_float;
  apm_24h : spec_float;
  apm_7d : spec_float
}.

(** [main] of [apm_stats.c].  [malloc_ok size] tells whether
    [malloc(size)] returns a block; [clock k] is the value of the [k]-th
    call of [time(NULL)].  [header.num_events] is used as it is, unsigned,
    for the allocation and the [fread], and converted to [int] for
    [calculate_apm_from_data]. *)
Definition stats_main (file : option (list byte)) (malloc_ok : Z -> bool)
    (clock : Z -> time_t) : stats_failure + stats_report :=
  match file with
  | None => inl cannot_open_data_file
  | Some bytes =>
      match read_header bytes with
      | None => inl cannot_read_header
      | Some (header, body) =>
          if negb (magic header =? DATA_MAGIC) then inl invalid_data_file_format
          else if negb (malloc_ok (num_events header * 8)) then
            inl cannot_allocate_memory
          else
            let records := read_events (Z.to_nat (num_events header)) body in
            if negb (Z.of_nat (length records) =? num_events header) then
              inl cannot_read_events
            else
              let events := events_array records in
              let count := to_int (num_events header) in
              inr (mkStatsReport
                     (calculate_apm_from_data events count 1 (clock 0))
                     (calculate_apm_from_data events count 5 (clock 1))
                     (calculate_apm_from_data events count 15 (clock 2))
                     (calculate_apm_from_data events count 60 (clock 3))
                     (calculate_apm_from_data events count (24 * 60) (clock 4))
                     (calculate_apm_from_data events count (7 * 24 * 60) (clock 5)))
      end
  end.

(** ** Auxiliary notions for the further properties *)

(** A store on which [add_event] is defined and the count is within the
    capacity. *)
Definition store_ok (w : world) : Prop :=
  event_buffer w <> None
  /\ in_allocation (event_index w) = true
  /\ 0 <= event_count w <= MAX_EVENTS.

(** The slots [save_data] can read: the seven multiples of 86400. *)
Definition saved_slots : list Z := map (fun k => k * 86400) [0; 1; 2; 3; 4; 5; 6].

(** ** main.c: the history behind the graphs *)

Module History.

Definition HISTORY_SIZE : Z := 60.
Definition GRAPH_WIDTH : Z := 60.

(** [typedef struct { float data[HISTORY_SIZE]; int index; int count;
    float max_value; char label[32]; time_t last_update; } APMHistory;] *)
Record APMHistory : Type := mkAPMHistory {
  data : Z -> spec_float;
  index : Z;
  count : Z;
  max_value : spec_float;
  label : list byte;
  last_update : time_t
}.

(** [init_apm_history]: the data zeroed by [memset], the label cut to 31
    characters. *)
Definition init_apm_history (name : list byte) : APMHistory :=
  mkAPMHistory (fun _ => S754_zero false) 0 0 (float_of_int 1) (firstn 31 name) 0.

(** [for (int i = 0; i < history->count; i++)
       if (history->data[i] > history->max_value) history->max_value = history->data[i];]
    with [n] iterations left and [m] the maximum so far. *)
Fixpoint max_loop (d : Z -> spec_float) (n : nat) (i : Z) (m : spec_float) : spec_float :=
  match n with
  | O => m
  | S n' => max_loop d n' (i + 1) (if SFltb m (d i) then d i else m)
  end.

(** [update_apm_history(history, value, now, update_interval)] *)
Definition update_apm_history (h : APMHistory) (value : spec_float)
    (now : time_t) (update_interval : Z) : APMHistory :=
  if update_interval <=? to_time_t (now - last_update h) then
    let data' := fun j => if j =? index h then value else data h j in
    let index' := Z.rem (index h + 1) HISTORY_SIZE in
    let count' := if count h <? HISTORY_SIZE then count h + 1 else count h in
    mkAPMHistory data' index' count'
      (max_loop data' (Z.to_nat count') 0 (float_of_int 1))
      (label h) now
  else h.

(** The slot [draw_apm_graph] reads for column [i]:
    [(history->index - 1 - i + HISTORY_SIZE) % HISTORY_SIZE]. *)
Definition graph_slot (h : APMHistory) (i : Z) : Z :=
  Z.rem (index h - 1 - i + HISTORY_SIZE) HISTORY_SIZE.

(** The values [draw_apm_graph] reads, column by column:
    [for (int i = 0; i < history->count && i < GRAPH_WIDTH; i++)], with [n]
    iterations left. *)
Fixpoint graph_loop (h : APMHistory) (n : nat) (i : Z) : list spec_float :=
  match n with
  | O => []
  | S n' => data h (graph_slot h i) :: graph_loop h n' (i + 1)
  end.

Definition graph_values (h : APMHistory) : list spec_float :=
  graph_loop h (Z.to_nat (Z.min (count h) GRAPH_WIDTH)) 0.

(** The calls [update_apm_history(h, value, now, update_interval)] for the
    pairs [(value, now)] of [calls], in order. *)
Definition run_updates (update_interval : Z)
    (calls : list (spec_float * time_t)) (h : APMHistory) : APMHistory :=
  fold_left (fun h c => update_apm_history h (fst c) (snd c) update_interval) calls h.

(** Every call of [calls] comes at least [update_interval] after the
    previous update, whose time is [last]. *)
Fixpoint spaced (update_interval : Z) (last : time_t)
    (calls : list (spec_float * time_t)) : Prop :=
  match calls with
  | [] => True
  | (_, now) :: rest =>
      update_interval <= to_time_t (now - last) /\ spaced update_interval now rest
  end.

(** The ring holds the values [vs], the last of them written last. *)
Definition holds_values (h : APMHistory) (vs : list spec_float) : Prop :=
  let n := Z.of_nat (length vs) in
  index h = n mod HISTORY_SIZE
  /\ count h = Z.min n HISTORY_SIZE
  /\ forall i : nat,
       Z.of_nat i < Z.min n HISTORY_SIZE ->
       data h ((n - 1 - Z.of_nat i) mod HISTORY_SIZE) = nth i (rev vs) (S754_zero false).

End History.

(** A history whose indices stay inside [data[HISTORY_SIZE]]. *)
Definition history_ok (h : History.APMHistory) : Prop :=
  0 <= History.index h < History.HISTORY_SIZE
  /\ 0 <= History.count h <= History.HISTORY_SIZE
  /\ (History.count h < History.HISTORY_SIZE -> History.index h = History.count h).

(** The position of a [float] that is not a NaN in the order of
    [SFcompare]: the sign class first, then exponent and mantissa. *)
Definition float_key (f : spec_float) : Z * Z * Z :=
  match f with
  | S754_infinity true => (-2, 0, 0)
  | S754_finite true m e => (-1, - e, - Z.pos m)
  | S754_zero _ => (0, 0, 0)
  | S754_finite false m e => (1, e, Z.pos m)
  | S754_infinity false => (2, 0, 0)
  | S754_nan => (0, 0, 0)
  end.

Definition key_lt (a b : Z * Z * Z) : Prop :=
  let '(a1, a2, a3) := a in
  let '(b1, b2, b3) := b in
  a1 < b1 \/ (a1 = b1 /\ (a2 < b2 \/ (a2 = b2 /\ a3 < b3))).

(** The maximum of a history bounds what the history holds. *)
Definition max_bounds (h : History.APMHistory) : Prop :=
  History.max_value h <> S754_nan
  /\ SFltb (History.max_value h) (float_of_int 1) = false
  /\ forall i, 0 <= i < History.count h ->
       SFltb (History.max_value h) (History.data h i) = false.

(** ** apm_tracker.c: find_input_devices *)

(** One entry of [/dev/input] with what the system calls answer for it: the
    name [readdir] gives (the characters of [d_name]), the value of
    [open(device_path, O_RDONLY | O_NONBLOCK)] (negative when it fails) and
    the words [ioctl(fd, EVIOCGBIT(0, sizeof(evbit)), evbit)] stores in
    [evbit] ([None] when the call fails). *)
Record device_entry : Type := mkDeviceEntry {
  d_name : list byte;
  open_result : Z;
  evbit : option (Z -> Z)
}.

(** [strncmp(entry->d_name, "event", 5) == 0] *)
Fixpoint starts_with (pattern name : list byte) : bool :=
  match pattern, name with
  | [], _ => true
  | _ :: _, [] => false
  | c :: pattern', d :: name' => Byte.eqb c d && starts_with pattern' name'
  end.

Definition event_prefix : list byte :=
  [Byte.x65; Byte.x76; Byte.x65; Byte.x6e; Byte.x74].

(** [evbit[cap / 8 / sizeof(long)] & (1 << (cap % (8 * sizeof(long))))], with
    [sizeof(long) = 8]; the shift of the [int] 1 is defined for a bit
    number below 31, which holds for the event types of Linux. *)
Definition has_capability (bits : Z -> Z) (cap : Z) : bool :=
  negb (Z.land (bits (Z.quot (Z.quot cap 8) 8)) (Z.shiftl 1 (Z.rem cap (8 * 8))) =? 0).

(** The test that keeps a device: key or relative-axis events. *)
Definition monitored_capability (EV_KEY EV_REL : Z) (bits : Z -> Z) : bool :=
  has_capability bits EV_KEY || has_capability bits EV_REL.

(** [input_fds[i] = fd] *)
Definition set_fd (fds : Z -> Z) (i fd : Z) : Z -> Z :=
  fun j => if j =? i then fd else fds j.

(** [while ((entry = readdir(dir)) != NULL && num_input_fds < MAX_DEVICES)]
    over the entries still to read.  [EV_KEY], [EV_REL] (of
    [<linux/input.h>]) and [PATH_MAX] (of [<limits.h>]) are parameters; the
    path is ["/dev/input/"], 11 characters, followed by the name. *)
Fixpoint scan_devices (EV_KEY EV_REL PATH_MAX : Z) (entries : list device_entry)
    (fds : Z -> Z) (num : Z) (table : list Z) : (Z -> Z) * Z * list Z :=
  match entries with
  | [] => (fds, num, table)
  | e :: rest =>
      if num <? MAX_DEVICES then
        if starts_with event_prefix (d_name e) then
          if PATH_MAX <=? 11 + Z.of_nat (length (d_name e)) then
            scan_devices EV_KEY EV_REL PATH_MAX rest fds num table
          else if open_result e <? 0 then
            scan_devices EV_KEY EV_REL PATH_MAX rest fds num table
          else
            let fd := open_result e in
            match evbit e with
            | None =>
                scan_devices EV_KEY EV_REL PATH_MAX rest fds num
                  (close fd (fd :: table))
            | Some bits =>
                if monitored_capability EV_KEY EV_REL bits then
                  scan_devices EV_KEY EV_REL PATH_MAX rest
                    (set_fd fds num fd) (num + 1) (fd :: table)
                else
                  scan_devices EV_KEY EV_REL PATH_MAX rest fds num
                    (close fd (fd :: table))
            end
        else scan_devices EV_KEY EV_REL PATH_MAX rest fds num table
      else (fds, num, table)
  end.

(** [for (int i = 0; i < num_input_fds; i++)
       if (input_fds[i] >= 0) { close(input_fds[i]); input_fds[i] = -1; }]
    with [n] iterations left. *)
Fixpoint close_previous (n : nat) (i : Z) (fds : Z -> Z) (table : list Z)
    : (Z -> Z) * list Z :=
  match n with
  | O => (fds, table)
  | S n' =>
      if 0 <=? fds i then
        close_previous n' (i + 1) (set_fd fds i (-1)) (close (fds i) table)
      else close_previous n' (i + 1) fds table
  end.

(** [for (int i = 0; i < MAX_DEVICES; i++) input_fds[i] = -1;] *)
Definition reset_fds (fds : Z -> Z) : Z -> Z :=
  fun j => if (0 <=? j) && (j <? MAX_DEVICES) then -1 else fds j.

(** [find_input_devices]; [dir] is the content of [/dev/input], [None] when
    [opendir] fails.  The result is the process and the value returned. *)
Definition find_input_devices (EV_KEY EV_REL PATH_MAX : Z)
    (dir : option (list device_entry)) (p : process) : process * Z :=
  let '(fds0, table0) :=
    close_previous (Z.to_nat (num_input_fds p)) 0 (input_fds p) (open_descriptors p) in
  match dir with
  | None => (mkProcess (globals p) fds0 0 table0, -1)
  | Some entries =>
      let '(fds1, num1, table1) :=
        scan_devices EV_KEY EV_REL PATH_MAX entries (reset_fds fds0) 0 table0 in
      (mkProcess (globals p) fds1 num1 table1,
       if num1 =? 0 then -1 else num1)
  end.

(** An entry that [find_input_devices] may keep. *)
Definition monitorable (EV_KEY EV_REL : Z) (e : device_entry) : Prop :=
  starts_with event_prefix (d_name e) = true
  /\ 0 <= open_result e
  /\ exists bits, evbit e = Some bits /\ monitored_capability EV_KEY EV_REL bits = true.

(** The store that [run_event_count_test] builds before it calls [save_data]:
    [memset(event_buffer, 0, ..)], then [event_buffer[i].timestamp = base_time + i],
    [event_count++] and [event_index = event_count] for [i < 10]. *)
Definition event_count_test_store (base_time : time_t) : world :=
  mkWorld (Some (fun i => if (0 <=? i) && (i <? 10) then base_time + i else 0))
    10 10 None true.

(** * Properties *)

(** ** Machine arithmetic *)

Lemma MAX_EVENTS_value : MAX_EVENTS = 604800.
Proof. reflexivity. Qed.

(** Closes range side conditions on the machine constants. *)
Ltac machine_range :=
  unfold int_range, time_t_range, INT_MIN, INT_MAX, MAX_EVENTS in *; cbn; lia.

Lemma swrap_small (bits z : Z) :
  0 < bits -> - 2 ^ (bits - 1) <= z < 2 ^ (bits - 1) -> swrap bits z = z.
Proof.
  intros Hb Hz. unfold swrap.
  assert (Hp : 2 ^ bits = 2 * 2 ^ (bits - 1)).
  { replace bits with (Z.succ (bits - 1)) at 1 by lia.
    apply Z.pow_succ_r. lia. }
  rewrite Z.mod_small; lia.
Qed.

Lemma to_int_small (z : Z) : int_range z -> to_int z = z.
Proof.
  unfold int_range, INT_MIN, INT_MAX, to_int. intros H.
  apply swrap_small; [lia | ]. change (2 ^ (32 - 1)) with 2147483648. lia.
Qed.

Lemma to_time_t_small (z : Z) : time_t_range z -> to_time_t z = z.
Proof.
  unfold time_t_range, to_time_t. intros H.
  apply swrap_small; [lia | ]. change (64 - 1) with 63. exact H.
Qed.

(** A [time_t] written as 8 bytes reads back as itself. *)
Lemma to_time_t_mod (z : Z) :
  time_t_range z -> to_time_t (z mod 2 ^ 64) = z.
Proof.
  unfold time_t_range, to_time_t, swrap. intros H.
  rewrite Z.add_mod_idemp_l by (apply Z.pow_nonzero; lia).
  change (64 - 1) with 63.
  assert (H64 : 2 ^ 64 = 2 * 2 ^ 63) by reflexivity.
  rewrite Z.mod_small; lia.
Qed.

(** The two values the cursor takes once [add_event] has run. *)
Lemma mod_MAX_EVENTS_1 : mod_MAX_EVENTS (0 + 1) = 86400.
Proof. reflexivity. Qed.

Lemma mod_MAX_EVENTS_86401 : mod_MAX_EVENTS (86400 + 1) = 0.
Proof. reflexivity. Qed.

Lemma mod_MAX_EVENTS_in_allocation (x : Z) :
  0 <= x -> in_allocation (mod_MAX_EVENTS x) = true.
Proof.
  intros Hx. unfold in_allocation, mod_MAX_EVENTS, MAX_EVENTS.
  pose proof (Z.rem_bound_pos x 7 Hx ltac:(lia)) as Hr.
  apply andb_true_iff. split; [apply Z.leb_le | apply Z.ltb_lt]; lia.
Qed.

(** ** add_event *)

(** A call that returns leaves the cursor inside the allocation: after a
    first call, [add_event] never writes outside the buffer. *)
Lemma add_event_cursor_in_allocation (now : time_t) (w w' : world) :
  add_event now w = Some w' -> in_allocation (event_index w') = true.
Proof.
  unfold add_event.
  destruct (event_buffer w) as [buf | ]; [ | discriminate].
  destruct (in_allocation (event_index w)) eqn:Hin; [ | discriminate].
  apply andb_true_iff in Hin. destruct Hin as [H0 _]. apply Z.leb_le in H0.
  destruct (event_count w <? MAX_EVENTS); intros E; injection E as <-;
    cbn [event_index set_events]; apply mod_MAX_EVENTS_in_allocation; lia.
Qed.

Lemma add_event_step (now : time_t) (w : world) (buf : buffer) :
  event_buffer w = Some buf ->
  cursor_toggles w ->
  add_event now w =
    Some (set_events w (write_slot buf (event_index w) now)
            (if event_count w <? MAX_EVENTS then event_count w + 1 else event_count w)
            (86400 - event_index w)).
Proof.
  intros Hb Hc. unfold add_event. rewrite Hb.
  destruct Hc as [Hc | Hc]; rewrite Hc.
  - rewrite mod_MAX_EVENTS_1. change (in_allocation 0) with true. cbv iota.
    destruct (event_count w <? MAX_EVENTS); reflexivity.
  - rewrite mod_MAX_EVENTS_86401. change (in_allocation 86400) with true. cbv iota.
    destruct (event_count w <? MAX_EVENTS); reflexivity.
Qed.

(** The state after a run of [add_event] calls: the calls all return, the
    count saturates at [MAX_EVENTS], the cursor alternates between the
    slots 0 and 86400, and no other slot is written. *)
Lemma add_events_run (ts : list time_t) :
  forall (w : world) (buf : buffer),
    event_buffer w = Some buf ->
    cursor_toggles w ->
    0 <= event_count w <= MAX_EVENTS ->
    exists (w' : world) (buf' : buffer),
      add_events ts w = Some w'
      /\ event_buffer w' = Some buf'
      /\ (forall j, j <> 0 -> j <> 86400 -> buf' j = buf j)
      /\ event_count w' = Z.min (event_count w + Z.of_nat (length ts)) MAX_EVENTS
      /\ event_index w' =
           (if Z.even (Z.of_nat (length ts)) then event_index w
            else 86400 - event_index w)
      /\ data_file w' = data_file w
      /\ data_writable w' = data_writable w.
Proof.
  induction ts as [| now rest IH]; intros w buf Hb Hc Hn.
  - exists w, buf. cbn [add_events length]. repeat split; trivial.
    change (Z.of_nat 0) with 0. lia.
  - cbn [add_events]. rewrite (add_event_step now w buf Hb Hc).
    set (w1 := set_events w _ _ _).
    assert (Hc1 : cursor_toggles w1).
    { unfold cursor_toggles, w1. cbn [event_index set_events].
      destruct Hc as [Hc | Hc]; rewrite Hc; [right | left]; reflexivity. }
    assert (Hn1 : 0 <= event_count w1 <= MAX_EVENTS).
    { unfold w1. cbn [event_count set_events].
      destruct (Z.ltb_spec (event_count w) MAX_EVENTS); lia. }
    destruct (IH w1 _ eq_refl Hc1 Hn1)
      as (w' & buf' & Hrun & Hb' & Hsl & Hcnt & Hidx & Hf & Hwr).
    exists w', buf'. repeat split; trivial.
    + intros j H0 H1. rewrite (Hsl j H0 H1). unfold write_slot.
      destruct (Z.eqb_spec j (event_index w)) as [E | E]; [ | reflexivity].
      destruct Hc as [Hc | Hc]; rewrite Hc in E; contradiction.
    + rewrite Hcnt. unfold w1. cbn [event_count set_events length].
      rewrite Nat2Z.inj_succ.
      destruct (Z.ltb_spec (event_count w) MAX_EVENTS); lia.
    + rewrite Hidx. cbn [length]. rewrite Nat2Z.inj_succ, Z.even_succ, <- Z.negb_even.
      unfold w1. cbn [event_index set_events].
      destruct (Z.even (Z.of_nat (length rest))); cbn [negb]; lia.
Qed.

Lemma add_events_app (ts1 ts2 : list time_t) (w : world) :
  add_events (ts1 ++ ts2) w =
    match add_events ts1 w with
    | Some w1 => add_events ts2 w1
    | None => None
    end.
Proof.
  revert w. induction ts1 as [| now rest IH]; intros w; cbn [add_events app].
  - reflexivity.
  - destruct (add_event now w); [apply IH | reflexivity].
Qed.

Lemma fresh_world_toggles mem file wr : cursor_toggles (fresh_world mem file wr).
Proof. left. reflexivity. Qed.

(** C5. Capacity bound.  From the empty store, any run of [add_event] calls
    returns; the count it leaves is the number of calls capped at
    [MAX_EVENTS]: never above the capacity, and equal to it as soon as the
    calls are more than the capacity. *)
Theorem add_events_capacity_bound :
  forall (ts : list time_t) (mem : buffer) (file : option (list byte)) (wr : bool),
  exists w' : world,
    add_events ts (fresh_world mem file wr) = Some w'
    /\ event_count w' <= MAX_EVENTS
    /\ event_count w' = Z.min (Z.of_nat (length ts)) MAX_EVENTS
    /\ (MAX_EVENTS < Z.of_nat (length ts) -> event_count w' = MAX_EVENTS).
Proof.
  intros ts mem file wr.
  destruct (add_events_run ts (fresh_world mem file wr) mem eq_refl
              (fresh_world_toggles mem file wr))
    as (w' & buf' & Hrun & _ & _ & Hcnt & _).
  { machine_range. }
  exists w'. cbn [event_count fresh_world] in Hcnt.
  rewrite Z.add_0_l in Hcnt. split; [exact Hrun | ]. rewrite Hcnt.
  split; [apply Z.le_min_r | ]. split; [reflexivity | ].
  intros Hmore. apply Z.min_r. lia.
Qed.

(** ** Loops over slots *)

Section Loops.
Variable buf : buffer.
Variable slot : Z -> Z.

Lemma length_view_loop (n : nat) :
  forall i, length (view_loop buf slot n i) = n.
Proof.
  induction n as [| n IH]; intros i; cbn [view_loop length]; [ | rewrite IH];
    reflexivity.
Qed.

Lemma nth_view_loop (d : time_t) (n : nat) :
  forall (k : nat) (i : Z),
    (k < n)%nat ->
    nth k (view_loop buf slot n i) d = buf (slot (i + Z.of_nat k)).
Proof.
  induction n as [| n IH]; intros k i Hk; [lia | ].
  cbn [view_loop]. destruct k as [| k].
  - cbn [nth]. f_equal. f_equal. lia.
  - cbn [nth]. rewrite IH by lia. f_equal. f_equal. lia.
Qed.

Lemma Forall_view_loop (P : time_t -> Prop) (n : nat) :
  forall i,
    (forall k, i <= k < i + Z.of_nat n -> P (buf (slot k))) ->
    Forall P (view_loop buf slot n i).
Proof.
  induction n as [| n IH]; intros i H; cbn [view_loop]; constructor.
  - apply H. lia.
  - apply IH. intros k Hk. apply H. lia.
Qed.

(** The counting loop counts the visited records that pass the cutoff. *)
Lemma count_loop_filter (cutoff : time_t) (n : nat) :
  forall i count,
    count_loop buf slot cutoff n i count =
      count + count_since cutoff (view_loop buf slot n i).
Proof.
  unfold count_since.
  induction n as [| n IH]; intros i count; cbn [count_loop view_loop filter].
  - cbn [length]. change (Z.of_nat 0) with 0. lia.
  - rewrite IH. destruct (cutoff <=? buf (slot i)); cbn [length]; lia.
Qed.
End Loops.

(** ** Runs of ticks *)

Lemma capacity_value : Z.of_nat capacity = MAX_EVENTS.
Proof. unfold capacity. apply Z2Nat.id. unfold MAX_EVENTS. lia. Qed.

Lemma length_ticks (n : nat) : length (ticks n) = n.
Proof. unfold ticks. rewrite length_map. apply length_seq. Qed.

Lemma nth_ticks (n k : nat) : (k < n)%nat -> nth k (ticks n) 0 = Z.of_nat k.
Proof.
  intros Hk. unfold ticks.
  change 0 with (Z.of_nat 0). rewrite map_nth. f_equal.
  rewrite seq_nth by exact Hk. reflexivity.
Qed.

Lemma ticks_succ (n : nat) : ticks (S n) = ticks n ++ [Z.of_nat n].
Proof. unfold ticks. rewrite seq_S, map_app. reflexivity. Qed.

Lemma ticks_range (n : nat) :
  Z.of_nat n < 2 ^ 63 -> Forall time_t_range (ticks n).
Proof.
  intros Hn. apply Forall_forall. intros t Ht. unfold ticks in Ht.
  apply in_map_iff in Ht. destruct Ht as (k & <- & Hk).
  apply in_seq in Hk. unfold time_t_range. lia.
Qed.

Lemma nth_tail (A : Type) (l : list A) (k : nat) (d : A) :
  nth k (skipn 1 l) d = nth (S k) l d.
Proof. destruct l as [| a l]; [destruct k | ]; reflexivity. Qed.

(** C2. Wraparound.  Recording the 604801 timestamps 0 < 1 < .. < 604800
    into the empty store returns with a full store whose cursor is 86400.
    The view [save_data] reconstructs from it starts with the content of
    slot 518400, which no call has written, followed by the newest
    timestamp 604800; it is not the run 1 .. 604800 of the last
    [MAX_EVENTS] timestamps. *)
Theorem wraparound_view_not_last_records :
  forall (mem : buffer) (file : option (list byte)) (wr : bool),
  exists w' : world,
    add_events (ticks (S capacity)) (fresh_world mem file wr) = Some w'
    /\ event_count w' = MAX_EVENTS
    /\ event_index w' = 86400
    /\ nth 0 (chronological_view w') 0 = mem 518400
    /\ nth 1 (chronological_view w') 0 = 604800
    /\ nth 1 (skipn 1 (ticks (S capacity))) 0 = 2
    /\ chronological_view w' <> skipn 1 (ticks (S capacity)).
Proof.
  intros mem file wr.
  destruct (add_events_run (ticks capacity) (fresh_world mem file wr) mem eq_refl
              (fresh_world_toggles mem file wr))
    as (w1 & buf1 & Hrun & Hb1 & Hsl & Hcnt & Hidx & _).
  { machine_range. }
  rewrite length_ticks, capacity_value in Hcnt, Hidx.
  cbn [event_count event_index fresh_world] in Hcnt, Hidx.
  change (Z.even MAX_EVENTS) with true in Hidx. cbv iota in Hidx.
  rewrite Z.add_0_l, Z.min_id in Hcnt.
  assert (Hstep : add_event (Z.of_nat capacity) w1 =
            Some (set_events w1 (write_slot buf1 0 MAX_EVENTS) MAX_EVENTS 86400)).
  { rewrite (add_event_step _ w1 buf1 Hb1) by (left; exact Hidx).
    rewrite Hidx, Hcnt, capacity_value, Z.ltb_irrefl. reflexivity. }
  set (w' := set_events w1 (write_slot buf1 0 MAX_EVENTS) MAX_EVENTS 86400) in *.
  assert (Hview : forall k, (k < capacity)%nat ->
            nth k (chronological_view w') 0 =
            write_slot buf1 0 MAX_EVENTS (chronological_slot w' (Z.of_nat k))).
  { intros k Hk. unfold chronological_view, w'.
    cbn [event_buffer event_count set_events]. rewrite Z.min_id.
    fold capacity. rewrite nth_view_loop by exact Hk. reflexivity. }
  assert (Hcap : (1 < capacity)%nat).
  { apply Nat2Z.inj_lt. rewrite capacity_value. reflexivity. }
  assert (H0 : nth 0 (chronological_view w') 0 = mem 518400).
  { rewrite Hview by lia.
    change (chronological_slot w' (Z.of_nat 0)) with 518400.
    unfold write_slot. change (518400 =? 0) with false. cbv iota.
    apply Hsl; discriminate. }
  assert (H1 : nth 1 (chronological_view w') 0 = 604800).
  { rewrite Hview by lia.
    change (chronological_slot w' (Z.of_nat 1)) with 0. reflexivity. }
  assert (H2 : nth 1 (skipn 1 (ticks (S capacity))) 0 = 2).
  { rewrite nth_tail, nth_ticks by lia. reflexivity. }
  exists w'. repeat split; trivial.
  - rewrite ticks_succ, add_events_app, Hrun. cbn [add_events].
    rewrite Hstep. reflexivity.
  - intros E. rewrite E, H2 in H1. discriminate H1.
Qed.

(** ** The byte image of the data file *)

Lemma firstn_app_length (A : Type) (n : nat) (a b : list A) :
  length a = n -> firstn n (a ++ b) = a.
Proof.
  intros <-. rewrite firstn_app, Nat.sub_diag, firstn_all. cbn [firstn].
  apply app_nil_r.
Qed.

Lemma skipn_app_length (A : Type) (n : nat) (a b : list A) :
  length a = n -> skipn n (a ++ b) = b.
Proof.
  intros <-. rewrite skipn_app, Nat.sub_diag, skipn_all. reflexivity.
Qed.

Lemma length_encode_header (h : FileHeader) : length (encode_header h) = 12%nat.
Proof. unfold encode_header. rewrite !length_app, !length_le_split. reflexivity. Qed.

Lemma le_combine_split_4 (z : Z) : le_combine (le_split 4 z) = z mod 2 ^ 32.
Proof. apply (le_combine_split 4 z). Qed.

Lemma le_combine_split_8 (z : Z) : le_combine (le_split 8 z) = z mod 2 ^ 64.
Proof. apply (le_combine_split 8 z). Qed.

Lemma read_header_encode (h : FileHeader) (body : list byte) :
  read_header (encode_header h ++ body) =
    Some (mkFileHeader (magic h mod 2 ^ 32) (version h mod 2 ^ 32)
            (num_events h mod 2 ^ 32),
          body).
Proof.
  unfold read_header.
  assert (Hlen : (12 <=? length (encode_header h ++ body))%nat = true).
  { apply Nat.leb_le. rewrite length_app, length_encode_header. lia. }
  rewrite Hlen.
  rewrite (skipn_app_length _ 12) by apply length_encode_header.
  unfold encode_header. rewrite <- !app_assoc.
  rewrite (firstn_app_length _ 4) by apply length_le_split.
  rewrite (skipn_app_length _ 4) by apply length_le_split.
  rewrite (firstn_app_length _ 4) by apply length_le_split.
  rewrite (app_assoc (le_split 4 (magic h))).
  rewrite (skipn_app_length _ 8)
    by (rewrite length_app, !length_le_split; reflexivity).
  rewrite (firstn_app_length _ 4) by apply length_le_split.
  rewrite !le_combine_split_4. reflexivity.
Qed.

Lemma decode_encode_event (t : time_t) :
  time_t_range t -> decode_event (encode_event t) = t.
Proof.
  intros Ht. unfold decode_event, encode_event.
  rewrite le_combine_split_8. apply to_time_t_mod. exact Ht.
Qed.

Lemma read_events_nil (n : nat) : read_events n [] = [].
Proof. destruct n; reflexivity. Qed.

(** Reading at most [n] records from the image of [ts] gives the first [n]
    of them. *)
Lemma read_events_encode (ts : list time_t) :
  Forall time_t_range ts ->
  forall n, read_events n (flat_map encode_event ts) = firstn n ts.
Proof.
  induction 1 as [| t ts Ht _ IH]; intros n.
  - cbn [flat_map]. rewrite read_events_nil, firstn_nil. reflexivity.
  - destruct n as [| n]; [reflexivity | ].
    cbn [flat_map read_events]. rewrite firstn_cons.
    assert (Hlen : (8 <=? length (encode_event t ++ flat_map encode_event ts))%nat = true).
    { apply Nat.leb_le. unfold encode_event at 1.
      rewrite length_app, length_le_split. lia. }
    rewrite Hlen.
    rewrite (firstn_app_length _ 8) by apply length_le_split.
    rewrite (skipn_app_length _ 8) by apply length_le_split.
    rewrite decode_encode_event by exact Ht. rewrite IH. reflexivity.
Qed.

(** The copying loop of [load_data], slot by slot. *)
Lemma copy_loop_slot (temp : list time_t) (start : Z) (n : nat) :
  forall (i : Z) (buf : buffer) (j : Z),
    copy_loop temp start n i buf j =
      if (i <=? j) && (j <? i + Z.of_nat n)
      then nth (Z.to_nat (start + j)) temp 0
      else buf j.
Proof.
  induction n as [| n IH]; intros i buf j.
  - cbn [copy_loop]. destruct (Z.leb_spec i j), (Z.ltb_spec j (i + Z.of_nat 0));
      cbn [andb]; try reflexivity. lia.
  - cbn [copy_loop]. rewrite IH. unfold write_slot.
    destruct (Z.leb_spec (i + 1) j), (Z.ltb_spec j (i + 1 + Z.of_nat n)),
      (Z.leb_spec i j), (Z.ltb_spec j (i + Z.of_nat (S n))),
      (Z.eqb_spec j i); cbn [andb]; try reflexivity; try lia.
    subst j. reflexivity.
Qed.

(** [load_data] on a well-formed image: the header is accepted, the first
    [min num_events MAX_EVENTS] records present are read and copied to the
    slots from 0 on, and both counters are set to their number. *)
Lemma load_data_image (w : world) (buf : buffer) (num : Z) (ts : list time_t) :
  event_buffer w = Some buf ->
  data_file w = Some (file_image num ts) ->
  0 <= num <= INT_MAX ->
  Forall time_t_range ts ->
  let to_read := Z.min num MAX_EVENTS in
  let n := Z.min to_read (Z.of_nat (length ts)) in
  load_data w =
    (set_events w (copy_loop (firstn (Z.to_nat to_read) ts) 0 (Z.to_nat n) 0 buf) n n,
     loaded (n <? to_read) n).
Proof.
  intros Hb Hf Hnum Hts to_read n.
  unfold load_data. rewrite Hb, Hf. unfold file_image.
  rewrite read_header_encode. cbn [magic version num_events].
  change (DATA_MAGIC mod 2 ^ 32 =? DATA_MAGIC) with true.
  change (1 mod 2 ^ 32 =? 1) with true. cbn [negb].
  unfold INT_MAX in Hnum.
  rewrite (Z.mod_small num) by (change (2 ^ 32) with 4294967296; lia).
  rewrite to_int_small by (unfold int_range, INT_MIN, INT_MAX; lia).
  assert (Hto : (if num >? MAX_EVENTS then MAX_EVENTS else num) = to_read).
  { unfold to_read. rewrite Z.gtb_ltb.
    destruct (Z.ltb_spec MAX_EVENTS num); lia. }
  rewrite Hto.
  assert (H0 : 0 <= to_read) by (unfold to_read, MAX_EVENTS; lia).
  assert (Hneg : (to_read <? 0) = false) by (apply Z.ltb_ge; exact H0).
  rewrite Hneg.
  rewrite read_events_encode by exact Hts.
  assert (Hlen : Z.of_nat (length (firstn (Z.to_nat to_read) ts)) = n).
  { rewrite length_firstn. unfold n. lia. }
  rewrite Hlen.
  assert (Hle : (n <=? MAX_EVENTS) = true).
  { apply Z.leb_le. unfold n, to_read. lia. }
  rewrite Hle. reflexivity.
Qed.

(** What [load_data] has copied is what a slot-by-slot reading finds. *)
Lemma view_copy_loop (temp : list time_t) (buf : buffer) :
  view_loop (copy_loop temp 0 (length temp) 0 buf) (fun i => i) (length temp) 0 = temp.
Proof.
  apply nth_ext with (d := 0) (d' := 0).
  - apply length_view_loop.
  - intros k Hk. rewrite length_view_loop in Hk.
    rewrite nth_view_loop by exact Hk. rewrite copy_loop_slot.
    destruct (Z.leb_spec 0 (0 + Z.of_nat k)),
      (Z.ltb_spec (0 + Z.of_nat k) (0 + Z.of_nat (length temp)));
      cbn [andb]; try lia.
    f_equal. lia.
Qed.

Lemma held_records_loaded (w : world) (buf : buffer) (temp : list time_t) (n : Z) :
  n = Z.of_nat (length temp) ->
  held_records (set_events w (copy_loop temp 0 (Z.to_nat n) 0 buf) n n) = temp.
Proof.
  intros ->. unfold held_records. cbn [event_buffer event_count set_events].
  rewrite Nat2Z.id. apply view_copy_loop.
Qed.

(** C4. The cursor invariant.  One [add_event] on the empty store leaves one
    record and the cursor at slot 86400, not at slot 1.  Loading a file that
    declares and holds exactly [MAX_EVENTS] records leaves a full store whose
    cursor is [MAX_EVENTS], one past the last slot of the allocation, so
    that the next [add_event] writes outside the buffer. *)
Theorem cursor_invariant_broken :
  (forall (now : time_t) (mem : buffer) (file : option (list byte)) (wr : bool),
     exists w' : world,
       add_event now (fresh_world mem file wr) = Some w'
       /\ event_count w' = 1
       /\ event_index w' = 86400)
  /\ (forall (mem : buffer) (wr : bool),
        exists w' : world,
          load_data (fresh_world mem (Some (file_image MAX_EVENTS (ticks capacity))) wr)
            = (w', loaded false MAX_EVENTS)
          /\ event_count w' = MAX_EVENTS
          /\ event_index w' = MAX_EVENTS
          /\ in_allocation (event_index w') = false
          /\ (forall now : time_t, add_event now w' = None)).
Proof.
  split.
  - intros now mem file wr. eexists. split; [reflexivity | ]. split; reflexivity.
  - intros mem wr.
    set (w0 := fresh_world mem (Some (file_image MAX_EVENTS (ticks capacity))) wr).
    pose proof (load_data_image w0 mem MAX_EVENTS (ticks capacity) eq_refl eq_refl) as L.
    cbv zeta in L. rewrite length_ticks, capacity_value, !Z.min_id in L.
    rewrite Z.ltb_irrefl in L.
    rewrite L.
    + eexists. split; [reflexivity | ].
      cbn [event_count event_index event_buffer set_events].
      split; [reflexivity | ]. split; [reflexivity | ]. split; [reflexivity | ].
      intros now. reflexivity.
    + machine_range.
    + apply ticks_range. rewrite capacity_value. reflexivity.
Qed.

(** C1. Truncation on overflow.  The file declares and holds the 604801
    records 0, 1, .., 604800, oldest first.  [load_data] clamps the number of
    records to read before reading, so it reads the first [MAX_EVENTS]
    records of the file: slot [i] receives record [i], the oldest record 0 is
    kept, and the newest record 604800 is in no slot.  The branch that would
    keep the most recent [MAX_EVENTS] records is never taken. *)
Theorem load_data_oversize_keeps_oldest :
  forall (mem : buffer) (wr : bool),
  exists (w' : world) (buf' : buffer),
    load_data
      (fresh_world mem (Some (file_image (MAX_EVENTS + 1) (ticks (S capacity)))) wr)
      = (w', loaded false MAX_EVENTS)
    /\ event_buffer w' = Some buf'
    /\ event_count w' = MAX_EVENTS
    /\ held_records w' = firstn capacity (ticks (S capacity))
    /\ buf' 0 = 0
    /\ (forall i, 0 <= i < MAX_EVENTS -> buf' i = i)
    /\ held_records w' <> skipn 1 (ticks (S capacity)).
Proof.
  intros mem wr.
  set (ts := ticks (S capacity)).
  set (w0 := fresh_world mem (Some (file_image (MAX_EVENTS + 1) ts)) wr).
  assert (Hlen : Z.of_nat (length ts) = MAX_EVENTS + 1).
  { unfold ts. rewrite length_ticks, Nat2Z.inj_succ, capacity_value. reflexivity. }
  pose proof (load_data_image w0 mem (MAX_EVENTS + 1) ts eq_refl eq_refl) as L.
  cbv zeta in L. rewrite Hlen in L.
  replace (Z.min (MAX_EVENTS + 1) MAX_EVENTS) with MAX_EVENTS in L by lia.
  replace (Z.min MAX_EVENTS (MAX_EVENTS + 1)) with MAX_EVENTS in L by lia.
  rewrite Z.ltb_irrefl in L. fold capacity in L.
  assert (Hfirst : Z.of_nat (length (firstn capacity ts)) = MAX_EVENTS).
  { rewrite length_firstn. unfold ts. rewrite length_ticks.
    rewrite Nat.min_l by lia. apply capacity_value. }
  assert (Hslot : forall i, 0 <= i < MAX_EVENTS ->
            copy_loop (firstn capacity ts) 0 capacity 0 mem i = i).
  { intros i Hi. rewrite copy_loop_slot, capacity_value.
    destruct (Z.leb_spec 0 i), (Z.ltb_spec i (0 + MAX_EVENTS)); cbn [andb]; try lia.
    rewrite nth_firstn.
    assert (Hc : (Z.to_nat (0 + i) <? capacity)%nat = true).
    { apply Nat.ltb_lt. unfold capacity. lia. }
    rewrite Hc. unfold ts. rewrite nth_ticks by (unfold capacity; lia). lia. }
  assert (Hheld : held_records
            (set_events w0 (copy_loop (firstn capacity ts) 0 capacity 0 mem)
               MAX_EVENTS MAX_EVENTS) = firstn capacity ts).
  { pose proof (held_records_loaded w0 mem (firstn capacity ts) MAX_EVENTS
                  (eq_sym Hfirst)) as H.
    fold capacity in H. exact H. }
  rewrite L.
  - eexists. eexists. split; [reflexivity | ].
    cbn [event_buffer event_count set_events].
    split; [reflexivity | ]. split; [reflexivity | ].
    split; [exact Hheld | ].
    split; [apply Hslot; unfold MAX_EVENTS; lia | ].
    split; [exact Hslot | ].
    rewrite Hheld. intros E.
    apply (f_equal (fun l => nth 0 l 0)) in E.
    rewrite nth_tail, nth_firstn in E. unfold ts in E.
    assert (Hc : (0 <? capacity)%nat = true).
    { apply Nat.ltb_lt. apply Nat2Z.inj_lt. rewrite capacity_value. reflexivity. }
    rewrite Hc, !nth_ticks in E by lia. discriminate E.
  - machine_range.
  - apply ticks_range. rewrite Nat2Z.inj_succ, capacity_value. reflexivity.
Qed.

(** ** save_data *)

Lemma save_data_writes (w : world) (buf : buffer) :
  event_buffer w = Some buf ->
  event_count w <> 0 ->
  data_writable w = true ->
  data_file (save_data w) =
    Some (file_image (event_count w) (chronological_view w)).
Proof.
  intros Hb Hn Hwr. unfold save_data. rewrite Hb, Hwr.
  destruct (Z.eqb_spec (event_count w) 0) as [E | _]; [contradiction | ].
  reflexivity.
Qed.

Lemma length_chronological_view (w : world) (buf : buffer) :
  event_buffer w = Some buf ->
  0 <= event_count w <= MAX_EVENTS ->
  Z.of_nat (length (chronological_view w)) = event_count w.
Proof.
  intros Hb Hn. unfold chronological_view. rewrite Hb, length_view_loop. lia.
Qed.

(** Loading the file that [save_data] wrote: the load succeeds and the
    slots from 0 on receive what [save_data] read through its own index
    computation. *)
Lemma load_saved_file (w : world) (buf mem : buffer) (wr : bool) :
  event_buffer w = Some buf ->
  0 < event_count w <= MAX_EVENTS ->
  data_writable w = true ->
  Forall time_t_range (chronological_view w) ->
  exists w' : world,
    load_data (fresh_world mem (data_file (save_data w)) wr)
      = (w', loaded false (event_count w))
    /\ event_buffer w' <> None
    /\ event_count w' = event_count w
    /\ event_index w' = event_count w
    /\ held_records w' = chronological_view w.
Proof.
  intros Hb Hn Hwr Hts.
  rewrite (save_data_writes w buf Hb) by (trivial; lia).
  pose proof (length_chronological_view w buf Hb) as Hlen.
  set (w0 := fresh_world mem (Some (file_image (event_count w) (chronological_view w))) wr).
  pose proof (load_data_image w0 mem (event_count w) (chronological_view w)
                eq_refl eq_refl) as L.
  cbv zeta in L. rewrite Hlen in L by lia.
  replace (Z.min (event_count w) MAX_EVENTS) with (event_count w) in L by lia.
  rewrite Z.min_id, Z.ltb_irrefl in L.
  rewrite firstn_all2 in L by lia.
  rewrite L by (trivial; machine_range).
  eexists. split; [reflexivity | ].
  cbn [event_buffer event_count event_index set_events].
  split; [discriminate | ]. split; [reflexivity | ]. split; [reflexivity | ].
  apply held_records_loaded. symmetry. apply Hlen. lia.
Qed.

(** C3. Round trip.  The store of [run_event_count_test]: the buffer zeroed,
    the records [base_time + i] in the slots [i < 10], count and cursor 10.
    [save_data] reads the slots [(i % 7) * 86400], so it writes the record of
    slot 0 at the positions 0 and 7 and zeros elsewhere; [load_data] accepts
    the file and reports 10 records, but the store it leaves holds
    [base_time] twice and eight zeros: the records [base_time + 1 ..
    base_time + 9] are lost, and the reloaded sequence is not the sequence
    of the saved store. *)
Theorem save_load_round_trip_broken :
  forall (mem : buffer) (wr : bool),
  exists w' : world,
    load_data
      (fresh_world mem (data_file (save_data (event_count_test_store 1700000000))) wr)
      = (w', loaded false 10)
    /\ held_records (event_count_test_store 1700000000) =
         [1700000000; 1700000001; 1700000002; 1700000003; 1700000004;
          1700000005; 1700000006; 1700000007; 1700000008; 1700000009]
    /\ chronological_view (event_count_test_store 1700000000) =
         [1700000000; 0; 0; 0; 0; 0; 0; 1700000000; 0; 0]
    /\ held_records w' = [1700000000; 0; 0; 0; 0; 0; 0; 1700000000; 0; 0]
    /\ ~ In 1700000001 (held_records w')
    /\ held_records w' <> held_records (event_count_test_store 1700000000).
Proof.
  intros mem wr.
  assert (Hview : chronological_view (event_count_test_store 1700000000) =
                  [1700000000; 0; 0; 0; 0; 0; 0; 1700000000; 0; 0])
    by (vm_compute; reflexivity).
  assert (Hheld : held_records (event_count_test_store 1700000000) =
                  [1700000000; 1700000001; 1700000002; 1700000003; 1700000004;
                   1700000005; 1700000006; 1700000007; 1700000008; 1700000009])
    by (vm_compute; reflexivity).
  destruct (load_saved_file (event_count_test_store 1700000000)
              (fun i => if (0 <=? i) && (i <? 10) then 1700000000 + i else 0)
              mem wr eq_refl)
    as (w' & HL & _ & _ & _ & Hh).
  - cbn. unfold MAX_EVENTS. lia.
  - reflexivity.
  - rewrite Hview. repeat constructor; unfold time_t_range; lia.
  - exists w'. rewrite Hh, Hview, Hheld.
    split; [exact HL | ]. split; [reflexivity | ]. split; [reflexivity | ].
    split; [reflexivity | ]. split.
    + cbn [In]. intros H.
      repeat (destruct H as [H | H]; [discriminate H | ]). exact H.
    + intros E. discriminate E.
Qed.

(** C9. Saving twice.  [save_data] changes nothing but the data file, and a
    second [save_data] right after the first leaves the world, data file
    included, as the first left it. *)
Theorem save_data_twice :
  forall w : world,
    save_data (save_data w) = save_data w
    /\ data_file (save_data (save_data w)) = data_file (save_data w)
    /\ event_buffer (save_data w) = event_buffer w
    /\ event_count (save_data w) = event_count w
    /\ event_index (save_data w) = event_index w.
Proof.
  intros w.
  assert (Hstore : event_buffer (save_data w) = event_buffer w
                   /\ event_count (save_data w) = event_count w
                   /\ event_index (save_data w) = event_index w
                   /\ data_writable (save_data w) = data_writable w).
  { unfold save_data.
    destruct (event_buffer w) eqn:Eb; [ | repeat split; exact Eb].
    destruct (event_count w =? 0); [repeat split; exact Eb | ].
    destruct (data_writable w) eqn:Ew; repeat split; assumption. }
  destruct Hstore as (Hb & Hc & Hi & Hwr).
  assert (Hview : chronological_view (save_data w) = chronological_view w).
  { unfold chronological_view, chronological_slot. rewrite Hb, Hc, Hi. reflexivity. }
  assert (Hidem : save_data (save_data w) = save_data w).
  { unfold save_data at 1. rewrite Hb, Hc, Hi, Hwr, Hview.
    unfold save_data.
    destruct (event_buffer w) eqn:Eb; [ | reflexivity].
    destruct (event_count w =? 0) eqn:Ec; [reflexivity | ].
    destruct (data_writable w) eqn:Ew; [reflexivity | ].
    destruct w; cbn in *; subst; reflexivity. }
  split; [exact Hidem | ]. split; [rewrite Hidem; reflexivity | ].
  split; [exact Hb | ]. split; [exact Hc | exact Hi].
Qed.

(** ** load_data on a rejected or missing file *)

(** C7. Bad header.  When the data file has a header whose magic is not
    0x00415041, or whose magic is right and whose version is not 1,
    [load_data] prints the message of a format rejection and returns with
    the world as it was: buffer, count, cursor and file. *)
Theorem load_data_rejects_bad_header :
  forall (w : world) (buf : buffer) (bytes body : list byte) (header : FileHeader),
    event_buffer w = Some buf ->
    data_file w = Some bytes ->
    read_header bytes = Some (header, body) ->
    magic header <> DATA_MAGIC \/ version header <> 1 ->
    exists r : report,
      load_data w = (w, r)
      /\ format_error r = true
      /\ (magic header <> DATA_MAGIC -> r = err_invalid_format)
      /\ (magic header = DATA_MAGIC -> r = err_unsupported_version (version header)).
Proof.
  intros w buf bytes body header Hb Hf Hh Hbad.
  unfold load_data. rewrite Hb, Hf, Hh.
  destruct (Z.eqb_spec (magic header) DATA_MAGIC) as [Em | Em]; cbn [negb].
  - destruct (Z.eqb_spec (version header) 1) as [Ev | Ev]; cbn [negb].
    + destruct Hbad; contradiction.
    + exists (err_unsupported_version (version header)).
      repeat split; trivial. intros; contradiction.
  - exists err_invalid_format. repeat split; trivial. intros; contradiction.
Qed.

(** C8. Missing file.  With the buffer allocated and no data file,
    [load_data] prints nothing and returns with the world as it was; a store
    that was empty is still empty. *)
Theorem load_data_missing_file :
  forall (w : world) (buf : buffer),
    event_buffer w = Some buf ->
    data_file w = None ->
    load_data w = (w, quiet)
    /\ event_count (fst (load_data w)) = event_count w
    /\ held_records (fst (load_data w)) = held_records w.
Proof.
  intros w buf Hb Hf.
  assert (H : load_data w = (w, quiet)).
  { unfold load_data. rewrite Hb, Hf. reflexivity. }
  rewrite H. repeat split.
Qed.

Lemma load_data_rejects_bad_header_witness :
  let header := mkFileHeader 0x004D5041 1 2 in
  let body := encode_event 7 ++ encode_event 8 in
  let w := mkWorld (Some (fun i => i)) 5 5 (Some (encode_header header ++ body)) true in
  read_header (encode_header header ++ body) = Some (header, body)
  /\ magic header <> DATA_MAGIC
  /\ exists r : report,
       load_data w = (w, r)
       /\ format_error r = true
       /\ (magic header <> DATA_MAGIC -> r = err_invalid_format)
       /\ (magic header = DATA_MAGIC -> r = err_unsupported_version (version header)).
Proof.
  split; [vm_compute; reflexivity | ].
  split; [vm_compute; discriminate | ].
  apply (load_data_rejects_bad_header
           (mkWorld (Some (fun i => i)) 5 5
              (Some (encode_header (mkFileHeader 0x004D5041 1 2)
                     ++ encode_event 7 ++ encode_event 8))
              true)
           (fun i => i)
           (encode_header (mkFileHeader 0x004D5041 1 2)
            ++ encode_event 7 ++ encode_event 8)
           (encode_event 7 ++ encode_event 8)
           (mkFileHeader 0x004D5041 1 2)).
  - reflexivity.
  - reflexivity.
  - vm_compute; reflexivity.
  - left. vm_compute. discriminate.
Defined.

Lemma load_data_missing_file_witness :
  let w := mkWorld (Some (fun i => i)) 0 0 None true in
  load_data w = (w, quiet)
  /\ event_count (fst (load_data w)) = event_count w
  /\ held_records (fst (load_data w)) = held_records w.
Proof.
  apply (load_data_missing_file (mkWorld (Some (fun i => i)) 0 0 None true)
           (fun i => i)); reflexivity.
Defined.

(** ** calculate_apm_with_time *)


Lemma cutoff_time_exact (minutes : Z) (now : time_t) :
  1 <= minutes ->
  minutes * 60 <= INT_MAX ->
  time_t_range (now - minutes * 60) ->
  cutoff_time minutes now = now - minutes * 60.
Proof.
  intros H1 H2 H3. unfold cutoff_time.
  rewrite to_int_small by (unfold int_range, INT_MIN, INT_MAX in *; lia).
  apply to_time_t_small. exact H3.
Qed.

(** On a store whose count is within the capacity, the rate is the quotient
    of the number of held records that pass the cutoff by the window. *)
Lemma calculate_apm_with_time_held (w : world) (buf : buffer)
    (minutes : Z) (now : time_t) :
  event_buffer w = Some buf ->
  0 < event_count w <= MAX_EVENTS ->
  1 <= minutes ->
  minutes * 60 <= INT_MAX ->
  time_t_range (now - minutes * 60) ->
  calculate_apm_with_time minutes now w =
    float_div
      (float_of_int (count_since (now - minutes * 60) (held_records w)))
      (float_of_int minutes).
Proof.
  intros Hb Hn H1 H2 H3. unfold calculate_apm_with_time, held_records.
  rewrite Hb.
  destruct (Z.eqb_spec (event_count w) 0) as [E | _]; [lia | ].
  destruct (Z.leb_spec (event_count w) MAX_EVENTS) as [_ | E]; [ | lia].
  cbv zeta. rewrite count_loop_filter, Z.add_0_l.
  rewrite cutoff_time_exact by assumption. reflexivity.
Qed.


Lemma count_since_all (cutoff : time_t) (records : list time_t) :
  Forall (fun t => cutoff <= t) records ->
  count_since cutoff records = Z.of_nat (length records).
Proof.
  intros H. unfold count_since. f_equal. f_equal.
  induction H as [| t l Ht _ IH]; cbn [filter]; [reflexivity | ].
  destruct (Z.leb_spec cutoff t); [rewrite IH; reflexivity | lia].
Qed.

(** C6. The rate.  On a non-empty store the result is the [float] quotient
    of the number of held records whose timestamp is at least
    [reference_time - window_minutes * 60] by [window_minutes]; on an empty
    store it is 0.0 for every window; on 60 records one second apart ending
    now, the one-minute rate is 60.0; on 60 records one minute apart ending
    now, the sixty-minute rate is 1.0. *)
Theorem calculate_apm_with_time_spec :
  (forall (w : world) (buf : buffer) (minutes : Z) (now : time_t),
     event_buffer w = Some buf ->
     0 < event_count w <= MAX_EVENTS ->
     1 <= minutes ->
     minutes * 60 <= INT_MAX ->
     time_t_range (now - minutes * 60) ->
     calculate_apm_with_time minutes now w =
       float_div
         (float_of_int (count_since (now - minutes * 60) (held_records w)))
         (float_of_int minutes))
  /\ (forall (w : world) (minutes : Z) (now : time_t),
        event_count w = 0 ->
        calculate_apm_with_time minutes now w = S754_zero false)
  /\ (forall now : time_t,
        time_t_range (now - 60) ->
        calculate_apm_with_time 1 now (last_minute_store now) = float_of_int 60)
  /\ (forall now : time_t,
        time_t_range (now - 3600) ->
        calculate_apm_with_time 60 now (last_hour_store now) = float_of_int 1).
Proof.
  split; [exact calculate_apm_with_time_held | ].
  split.
  { intros w minutes now E. unfold calculate_apm_with_time. rewrite E.
    destruct (event_buffer w); reflexivity. }
  split.
  - intros now Hr.
    rewrite (calculate_apm_with_time_held (last_minute_store now) (fun i => now - i))
      by (trivial; cbn; unfold MAX_EVENTS, INT_MAX; lia).
    rewrite count_since_all.
    + reflexivity.
    + apply Forall_view_loop. intros k Hk.
      cbn [event_count last_minute_store last_hour_store] in Hk.
      change (Z.of_nat (Z.to_nat 60)) with 60 in Hk. cbv beta. lia.
  - intros now Hr.
    rewrite (calculate_apm_with_time_held (last_hour_store now) (fun i => now - i * 60))
      by (trivial; cbn; unfold MAX_EVENTS, INT_MAX; lia).
    rewrite count_since_all.
    + reflexivity.
    + apply Forall_view_loop. intros k Hk.
      cbn [event_count last_minute_store last_hour_store] in Hk.
      change (Z.of_nat (Z.to_nat 60)) with 60 in Hk. cbv beta. lia.
Qed.

Lemma calculate_apm_with_time_spec_witness :
  let w := mkWorld (Some (fun i => 1000 - i)) 60 60 None true in
  count_since (1000 - 1 * 60) (held_records w) = 60
  /\ calculate_apm_with_time 1 1000 w =
       float_div (float_of_int (count_since (1000 - 1 * 60) (held_records w)))
         (float_of_int 1)
  /\ calculate_apm_with_time 1 1000 w = float_of_int 60.
Proof.
  split; [reflexivity | ].
  split; [ | reflexivity].
  apply (proj1 calculate_apm_with_time_spec
           (mkWorld (Some (fun i => 1000 - i)) 60 60 None true)
           (fun i => 1000 - i) 1 1000).
  - reflexivity.
  - cbn. unfold MAX_EVENTS. lia.
  - lia.
  - unfold INT_MAX. lia.
  - unfold time_t_range. lia.
Defined.

(** The two literal rates are the numbers 60 and 1, and 0.0 is 0. *)
Lemma float_of_int_60_exact : float_is_integer (float_of_int 60) 60.
Proof. vm_compute. split; [discriminate | reflexivity]. Qed.

Lemma float_of_int_1_exact : float_is_integer (float_of_int 1) 1.
Proof. vm_compute. split; [discriminate | reflexivity]. Qed.

Lemma count_since_split (cutoff now : time_t) (records : list time_t) :
  cutoff <= now + 1 ->
  count_since cutoff records =
    count_within cutoff now records + count_after now records.
Proof.
  intros Hc. unfold count_since, count_within, count_after.
  rewrite <- Nat2Z.inj_add. f_equal.
  induction records as [| t l IH]; [reflexivity | ].
  cbn [filter].
  destruct (Z.leb_spec cutoff t), (Z.leb_spec t now), (Z.ltb_spec now t);
    cbn [andb length]; lia.
Qed.

(** C10. No upper bound.  The count behind the rate of a non-empty store is
    the number of held records inside the window
    [reference_time - window_minutes * 60 .. reference_time] plus the number
    of held records later than [reference_time]: only the lower cutoff is
    applied. *)
Theorem calculate_apm_with_time_counts_later_records :
  forall (w : world) (buf : buffer) (minutes : Z) (now : time_t),
    event_buffer w = Some buf ->
    0 < event_count w <= MAX_EVENTS ->
    1 <= minutes ->
    minutes * 60 <= INT_MAX ->
    time_t_range (now - minutes * 60) ->
    calculate_apm_with_time minutes now w =
      float_div
        (float_of_int
           (count_within (now - minutes * 60) now (held_records w)
            + count_after now (held_records w)))
        (float_of_int minutes).
Proof.
  intros w buf minutes now Hb Hn H1 H2 H3.
  rewrite (calculate_apm_with_time_held w buf minutes now Hb Hn H1 H2 H3).
  rewrite (count_since_split (now - minutes * 60) now) by lia.
  reflexivity.
Qed.

Lemma calculate_apm_with_time_counts_later_records_witness :
  let w := mkWorld (Some (fun i => if i =? 0 then 2000 else 0)) 2 2 None true in
  held_records w = [2000; 0]
  /\ count_within (1000 - 1 * 60) 1000 (held_records w) = 0
  /\ count_after 1000 (held_records w) = 1
  /\ calculate_apm_with_time 1 1000 w =
       float_div
         (float_of_int
            (count_within (1000 - 1 * 60) 1000 (held_records w)
             + count_after 1000 (held_records w)))
         (float_of_int 1)
  /\ calculate_apm_with_time 1 1000 w = float_of_int 1.
Proof.
  split; [reflexivity | ]. split; [reflexivity | ]. split; [reflexivity | ].
  split; [ | reflexivity].
  apply (calculate_apm_with_time_counts_later_records
           (mkWorld (Some (fun i => if i =? 0 then 2000 else 0)) 2 2 None true)
           (fun i => if i =? 0 then 2000 else 0) 1 1000).
  - reflexivity.
  - cbn. unfold MAX_EVENTS. lia.
  - lia.
  - unfold INT_MAX. lia.
  - unfold time_t_range. lia.
Defined.


(** * Further properties of the code *)

(** ** add_event on any valid store *)

Lemma add_event_store_ok (now : time_t) (w : world) :
  store_ok w ->
  exists w' : world,
    add_event now w = Some w'
    /\ store_ok w'
    /\ event_count w' = Z.min (event_count w + 1) MAX_EVENTS
    /\ data_file w' = data_file w
    /\ data_writable w' = data_writable w.
Proof.
  intros (Hb & Hin & Hn).
  destruct (event_buffer w) as [buf | ] eqn:Eb; [ | contradiction].
  unfold add_event. rewrite Eb, Hin.
  assert (H0 : 0 <= event_index w).
  { apply andb_true_iff in Hin. destruct Hin as [H _]. apply Z.leb_le. exact H. }
  destruct (Z.ltb_spec (event_count w) MAX_EVENTS) as [Hlt | Hge];
    eexists; (split; [reflexivity | ]); unfold store_ok;
    cbn [event_buffer event_index event_count data_file data_writable set_events];
    repeat split; try discriminate; try lia;
    apply mod_MAX_EVENTS_in_allocation; lia.
Qed.

Lemma add_events_store_ok (ts : list time_t) :
  forall w : world,
    store_ok w ->
    exists w' : world,
      add_events ts w = Some w'
      /\ store_ok w'
      /\ event_count w' = Z.min (event_count w + Z.of_nat (length ts)) MAX_EVENTS
      /\ data_file w' = data_file w
      /\ data_writable w' = data_writable w.
Proof.
  induction ts as [| now rest IH]; intros w Hok.
  - exists w. cbn [add_events length]. repeat split; try apply Hok.
    destruct Hok as (_ & _ & Hn). change (Z.of_nat 0) with 0. lia.
  - destruct (add_event_store_ok now w Hok) as (w1 & H1 & Hok1 & Hc1 & Hf1 & Hw1).
    destruct (IH w1 Hok1) as (w' & H' & Hok' & Hc' & Hf' & Hw').
    exists w'. cbn [add_events]. rewrite H1.
    split; [exact H' | ]. split; [exact Hok' | ].
    split; [ | split; congruence].
    rewrite Hc', Hc1. cbn [length]. rewrite Nat2Z.inj_succ.
    destruct Hok as (_ & _ & Hn). lia.
Qed.

(** X1. Memory safety of recording.  On a store whose buffer is allocated,
    whose cursor is a slot of the allocation and whose count is within the
    capacity, every run of [add_event] calls returns, writes inside the
    buffer only, keeps these three facts, caps the count at [MAX_EVENTS] and
    leaves the data file alone. *)
Theorem add_events_memory_safe :
  forall (ts : list time_t) (w : world),
    store_ok w ->
    exists w' : world,
      add_events ts w = Some w'
      /\ store_ok w'
      /\ event_count w' = Z.min (event_count w + Z.of_nat (length ts)) MAX_EVENTS
      /\ data_file w' = data_file w.
Proof.
  intros ts w Hok.
  destruct (add_events_store_ok ts w Hok) as (w' & H & Hok' & Hc & Hf & _).
  exists w'. auto.
Qed.

Lemma add_events_memory_safe_witness :
  let w := mkWorld (Some (fun i => i)) 604799 518400 None true in
  store_ok w
  /\ exists w' : world,
       add_events [5; 6; 7] w = Some w'
       /\ store_ok w'
       /\ event_count w' = Z.min (event_count w + Z.of_nat (length [5; 6; 7])) MAX_EVENTS
       /\ data_file w' = data_file w.
Proof.
  assert (Hok : store_ok (mkWorld (Some (fun i => i)) 604799 518400 None true)).
  { unfold store_ok. cbn. split; [discriminate | ]. split; [reflexivity | ].
    unfold MAX_EVENTS. lia. }
  split; [exact Hok | ].
  apply (add_events_memory_safe [5; 6; 7]
           (mkWorld (Some (fun i => i)) 604799 518400 None true) Hok).
Defined.

(** ** load_data: what every call leaves *)

Lemma length_read_events (n : nat) :
  forall body, (length (read_events n body) <= n)%nat.
Proof.
  induction n as [| n IH]; intros body; cbn [read_events]; [cbn; lia | ].
  destruct (8 <=? length body)%nat; cbn [length]; [ | lia].
  specialize (IH (skipn 8 body)). lia.
Qed.

(** X2. Outcome of a load.  Whatever the world and the file, [load_data]
    never changes the data file; when it reports loaded records their number
    is between 0 and [MAX_EVENTS] and both the count and the cursor are set
    to it (the branch that would set the cursor to 0 is never taken); with
    any other report the world is exactly as before. *)
Theorem load_data_outcome :
  forall w : world,
    data_file (fst (load_data w)) = data_file w
    /\ data_writable (fst (load_data w)) = data_writable w
    /\ match snd (load_data w) with
       | loaded _ n =>
           0 <= n <= MAX_EVENTS
           /\ event_count (fst (load_data w)) = n
           /\ event_index (fst (load_data w)) = n
           /\ event_buffer (fst (load_data w)) <> None
       | _ => fst (load_data w) = w
       end.
Proof.
  intros w. unfold load_data.
  destruct (event_buffer w) as [buf | ]; [ | cbn; auto].
  destruct (data_file w) as [bytes | ] eqn:Ef; [ | cbn; auto].
  destruct (read_header bytes) as [[header body] | ]; [ | cbn; auto].
  destruct (negb (magic header =? DATA_MAGIC)); [cbn; auto | ].
  destruct (negb (version header =? 1)); [cbn; auto | ].
  set (to_read := if to_int (num_events header) >? MAX_EVENTS
                  then MAX_EVENTS else to_int (num_events header)).
  cbv zeta.
  destruct (Z.ltb_spec to_read 0) as [Hneg | Hpos]; [cbn; auto | ].
  pose proof (length_read_events (Z.to_nat to_read) body) as Hlen.
  assert (Hto : to_read <= MAX_EVENTS).
  { unfold to_read. rewrite Z.gtb_ltb.
    destruct (Z.ltb_spec MAX_EVENTS (to_int (num_events header))); lia. }
  destruct (Z.leb_spec (Z.of_nat (length (read_events (Z.to_nat to_read) body)))
              MAX_EVENTS) as [Hle | Hgt]; [ | lia].
  cbn [fst snd event_count event_index event_buffer data_file data_writable set_events].
  repeat split; first [discriminate | assumption | lia].
Qed.

(** ** The record codec, with a damaged end of file *)

Lemma read_events_encode_tail (ts : list time_t) (tail : list byte) :
  Forall time_t_range ts ->
  (length tail < 8)%nat ->
  forall n, read_events n (flat_map encode_event ts ++ tail) = firstn n ts.
Proof.
  intros Hts Htail. induction Hts as [| t ts Ht _ IH]; intros n.
  - cbn [flat_map app]. rewrite firstn_nil. destruct n as [| n]; [reflexivity | ].
    cbn [read_events].
    assert (E : (8 <=? length tail)%nat = false) by (apply Nat.leb_gt; exact Htail).
    rewrite E. reflexivity.
  - destruct n as [| n]; [reflexivity | ].
    cbn [flat_map read_events]. rewrite firstn_cons, <- app_assoc.
    assert (Hlen : (8 <=? length (encode_event t ++ flat_map encode_event ts ++ tail))%nat
                   = true).
    { apply Nat.leb_le. unfold encode_event at 1.
      rewrite length_app, length_le_split. lia. }
    rewrite Hlen.
    rewrite (firstn_app_length _ 8) by apply length_le_split.
    rewrite (skipn_app_length _ 8) by apply length_le_split.
    rewrite decode_encode_event by exact Ht. rewrite IH. reflexivity.
Qed.

(** X8. Records on disk.  Reading at most [n] records from the bytes of
    the records [ts] followed by fewer than 8 stray bytes gives back the
    first [n] of [ts]: each record decodes to what was encoded, the order is
    kept and an incomplete last record is dropped. *)
Theorem read_events_round_trip :
  forall (ts : list time_t) (tail : list byte) (n : nat),
    Forall time_t_range ts ->
    (length tail < 8)%nat ->
    read_events n (flat_map encode_event ts ++ tail) = firstn n ts
    /\ read_events (length ts) (flat_map encode_event ts ++ tail) = ts.
Proof.
  intros ts tail n Hts Htail. split.
  - apply read_events_encode_tail; assumption.
  - rewrite read_events_encode_tail by assumption. apply firstn_all.
Qed.

Lemma read_events_round_trip_witness :
  Forall time_t_range [1700000000; -5]
  /\ (length [Byte.x01; Byte.x02; Byte.x03] < 8)%nat
  /\ read_events 1 (flat_map encode_event [1700000000; -5]
                    ++ [Byte.x01; Byte.x02; Byte.x03])
     = firstn 1 [1700000000; -5]
  /\ read_events (length [1700000000; -5])
       (flat_map encode_event [1700000000; -5] ++ [Byte.x01; Byte.x02; Byte.x03])
     = [1700000000; -5].
Proof.
  assert (Hts : Forall time_t_range [1700000000; -5]).
  { repeat constructor; unfold time_t_range; lia. }
  assert (Htail : (length [Byte.x01; Byte.x02; Byte.x03] < 8)%nat) by (cbn; lia).
  split; [exact Hts | ]. split; [exact Htail | ].
  apply (read_events_round_trip [1700000000; -5] [Byte.x01; Byte.x02; Byte.x03] 1
           Hts Htail).
Defined.

(** X7. Header on disk.  A header whose three fields are 32-bit unsigned
    values is written as 12 bytes and read back, with the rest of the file
    intact, as the same header. *)
Theorem read_header_round_trip :
  forall (h : FileHeader) (body : list byte),
    0 <= magic h < 2 ^ 32 ->
    0 <= version h < 2 ^ 32 ->
    0 <= num_events h < 2 ^ 32 ->
    length (encode_header h) = 12%nat
    /\ read_header (encode_header h ++ body) = Some (h, body).
Proof.
  intros h body Hm Hv Hn. split; [apply length_encode_header | ].
  rewrite read_header_encode, !Z.mod_small by assumption.
  destruct h; reflexivity.
Qed.

Lemma read_header_round_trip_witness :
  let h := mkFileHeader DATA_MAGIC 1 604800 in
  0 <= magic h < 2 ^ 32
  /\ 0 <= version h < 2 ^ 32
  /\ 0 <= num_events h < 2 ^ 32
  /\ length (encode_header h) = 12%nat
  /\ read_header (encode_header h ++ [Byte.xff]) = Some (h, [Byte.xff]).
Proof.
  assert (Hm : 0 <= magic (mkFileHeader DATA_MAGIC 1 604800) < 2 ^ 32)
    by (cbn; unfold DATA_MAGIC; lia).
  assert (Hv : 0 <= version (mkFileHeader DATA_MAGIC 1 604800) < 2 ^ 32)
    by (cbn; lia).
  assert (Hn : 0 <= num_events (mkFileHeader DATA_MAGIC 1 604800) < 2 ^ 32)
    by (cbn; lia).
  split; [exact Hm | ]. split; [exact Hv | ]. split; [exact Hn | ].
  apply (read_header_round_trip (mkFileHeader DATA_MAGIC 1 604800) [Byte.xff]
           Hm Hv Hn).
Defined.

(** [load_data] on a file with a good header, whole records and possibly a
    damaged end. *)
Lemma load_data_body (w : world) (buf : buffer) (declared : Z)
    (ts : list time_t) (tail : list byte) :
  event_buffer w = Some buf ->
  data_file w =
    Some (encode_header (mkFileHeader DATA_MAGIC 1 declared)
          ++ flat_map encode_event ts ++ tail) ->
  0 <= declared <= INT_MAX ->
  Forall time_t_range ts ->
  (length tail < 8)%nat ->
  let to_read := Z.min declared MAX_EVENTS in
  let n := Z.min to_read (Z.of_nat (length ts)) in
  load_data w =
    (set_events w (copy_loop (firstn (Z.to_nat to_read) ts) 0 (Z.to_nat n) 0 buf) n n,
     loaded (n <? to_read) n).
Proof.
  intros Hb Hf Hnum Hts Htail to_read n.
  unfold load_data. rewrite Hb, Hf.
  rewrite read_header_encode. cbn [magic version num_events].
  change (DATA_MAGIC mod 2 ^ 32 =? DATA_MAGIC) with true.
  change (1 mod 2 ^ 32 =? 1) with true. cbn [negb].
  unfold INT_MAX in Hnum.
  rewrite (Z.mod_small declared) by (change (2 ^ 32) with 4294967296; lia).
  rewrite to_int_small by (unfold int_range, INT_MIN, INT_MAX; lia).
  assert (Hto : (if declared >? MAX_EVENTS then MAX_EVENTS else declared) = to_read).
  { unfold to_read. rewrite Z.gtb_ltb.
    destruct (Z.ltb_spec MAX_EVENTS declared); lia. }
  rewrite Hto.
  assert (H0 : 0 <= to_read) by (unfold to_read, MAX_EVENTS; lia).
  assert (Hneg : (to_read <? 0) = false) by (apply Z.ltb_ge; exact H0).
  rewrite Hneg.
  rewrite read_events_encode_tail by assumption.
  assert (Hlen : Z.of_nat (length (firstn (Z.to_nat to_read) ts)) = n).
  { rewrite length_firstn. unfold n. lia. }
  rewrite Hlen.
  assert (Hle : (n <=? MAX_EVENTS) = true).
  { apply Z.leb_le. unfold n, to_read. lia. }
  rewrite Hle. reflexivity.
Qed.

(** X3. Truncated file.  When the file holds fewer whole records than its
    header declares and than the capacity, possibly followed by a broken
    record, [load_data] keeps every whole record, in order from slot 0,
    sets count and cursor to their number and reports the short read. *)
Theorem load_data_truncated_body :
  forall (w : world) (buf : buffer) (declared : Z)
         (ts : list time_t) (tail : list byte),
    event_buffer w = Some buf ->
    data_file w =
      Some (encode_header (mkFileHeader DATA_MAGIC 1 declared)
            ++ flat_map encode_event ts ++ tail) ->
    declared <= INT_MAX ->
    Forall time_t_range ts ->
    (length tail < 8)%nat ->
    Z.of_nat (length ts) < Z.min declared MAX_EVENTS ->
    exists w' : world,
      load_data w = (w', loaded true (Z.of_nat (length ts)))
      /\ held_records w' = ts
      /\ event_count w' = Z.of_nat (length ts)
      /\ event_index w' = Z.of_nat (length ts).
Proof.
  intros w buf declared ts tail Hb Hf Hd Hts Htail Hshort.
  pose proof (load_data_body w buf declared ts tail Hb Hf) as L.
  cbv zeta in L.
  replace (Z.min (Z.min declared MAX_EVENTS) (Z.of_nat (length ts)))
    with (Z.of_nat (length ts)) in L by lia.
  assert (Hflag : (Z.of_nat (length ts) <? Z.min declared MAX_EVENTS) = true)
    by (apply Z.ltb_lt; exact Hshort).
  rewrite Hflag in L.
  assert (Hall : firstn (Z.to_nat (Z.min declared MAX_EVENTS)) ts = ts)
    by (apply firstn_all2; lia).
  rewrite Hall in L.
  rewrite L by (trivial; lia).
  eexists. split; [reflexivity | ].
  split; [apply held_records_loaded; reflexivity | ].
  split; reflexivity.
Qed.

Lemma load_data_truncated_body_witness :
  let bytes := encode_header (mkFileHeader DATA_MAGIC 1 3)
               ++ flat_map encode_event [10; 20] ++ [Byte.x1e; Byte.x00] in
  let w := fresh_world (fun _ => 0) (Some bytes) true in
  Z.of_nat (length [10; 20]) < Z.min 3 MAX_EVENTS
  /\ exists w' : world,
       load_data w = (w', loaded true (Z.of_nat (length [10; 20])))
       /\ held_records w' = [10; 20]
       /\ event_count w' = Z.of_nat (length [10; 20])
       /\ event_index w' = Z.of_nat (length [10; 20]).
Proof.
  split; [cbn; unfold MAX_EVENTS; lia | ].
  apply (load_data_truncated_body
           (fresh_world (fun _ => 0)
              (Some (encode_header (mkFileHeader DATA_MAGIC 1 3)
                     ++ flat_map encode_event [10; 20] ++ [Byte.x1e; Byte.x00]))
              true)
           (fun _ => 0) 3 [10; 20] [Byte.x1e; Byte.x00]).
  - reflexivity.
  - reflexivity.
  - unfold INT_MAX. lia.
  - repeat constructor; unfold time_t_range; lia.
  - cbn. lia.
  - cbn. unfold MAX_EVENTS. lia.
Defined.

(** ** What save_data writes *)

Lemma length_flat_map_encode_event (ts : list time_t) :
  length (flat_map encode_event ts) = (8 * length ts)%nat.
Proof.
  induction ts as [| t ts IH]; [reflexivity | ].
  cbn [flat_map length]. unfold encode_event at 1.
  rewrite length_app, length_le_split, IH. lia.
Qed.

(** X5. Size of the data file.  A successful save of a store with
    [event_count] records, between 1 and [MAX_EVENTS], leaves a file of
    exactly [12 + 8 * event_count] bytes, hence of at most 4838412 bytes. *)
Theorem save_data_file_size :
  forall (w : world) (buf : buffer),
    event_buffer w = Some buf ->
    0 < event_count w <= MAX_EVENTS ->
    data_writable w = true ->
    exists bytes : list byte,
      data_file (save_data w) = Some bytes
      /\ Z.of_nat (length bytes) = 12 + 8 * event_count w
      /\ Z.of_nat (length bytes) <= 4838412.
Proof.
  intros w buf Hb Hn Hwr.
  rewrite (save_data_writes w buf Hb) by (trivial; lia).
  eexists. split; [reflexivity | ].
  unfold file_image.
  rewrite length_app, length_encode_header, length_flat_map_encode_event.
  pose proof (length_chronological_view w buf Hb) as Hlen.
  unfold MAX_EVENTS in *. lia.
Qed.

Lemma save_data_file_size_witness :
  let w := mkWorld (Some (fun i => 100 + i)) 3 3 None true in
  exists bytes : list byte,
    data_file (save_data w) = Some bytes
    /\ Z.of_nat (length bytes) = 12 + 8 * event_count w
    /\ Z.of_nat (length bytes) <= 4838412.
Proof.
  apply (save_data_file_size (mkWorld (Some (fun i => 100 + i)) 3 3 None true)
           (fun i => 100 + i)).
  - reflexivity.
  - cbn. unfold MAX_EVENTS. lia.
  - reflexivity.
Defined.

Lemma chronological_slot_saved (w : world) (i : Z) :
  0 <= event_index w ->
  event_count w <= MAX_EVENTS ->
  0 <= i ->
  In (chronological_slot w i) saved_slots
  /\ chronological_slot w (i + 7) = chronological_slot w i.
Proof.
  intros Hi Hn H0. unfold chronological_slot, mod_MAX_EVENTS.
  set (x := event_index w - event_count w + i + MAX_EVENTS).
  assert (Hx : 0 <= x) by (unfold x; lia).
  replace (event_index w - event_count w + (i + 7) + MAX_EVENTS) with (x + 1 * 7)
    by (unfold x; lia).
  rewrite !Z.rem_mod_nonneg by lia.
  rewrite Z_mod_plus_full.
  split; [ | reflexivity].
  pose proof (Z.mod_pos_bound x 7 ltac:(lia)) as Hk.
  set (k := x mod 7) in *.
  assert (Hcases : k = 0 \/ k = 1 \/ k = 2 \/ k = 3 \/ k = 4 \/ k = 5 \/ k = 6) by lia.
  unfold saved_slots. cbn [map In].
  destruct Hcases as [-> | [-> | [-> | [-> | [-> | [-> | ->]]]]]]; cbn; tauto.
Qed.

(** X6. The slots behind a save.  On a store with a non-negative cursor and
    a count within the capacity, every record [save_data] writes is the
    content of one of the seven slots 0, 86400, .., 518400 (the index is
    taken modulo the unparenthesised [MAX_EVENTS]), and the written sequence
    repeats with period 7. *)
Theorem chronological_view_seven_slots :
  forall (w : world) (buf : buffer) (i : nat),
    event_buffer w = Some buf ->
    0 <= event_index w ->
    0 <= event_count w <= MAX_EVENTS ->
    Z.of_nat i < event_count w ->
    nth i (chronological_view w) 0 = buf (chronological_slot w (Z.of_nat i))
    /\ In (chronological_slot w (Z.of_nat i)) saved_slots
    /\ (Z.of_nat i + 7 < event_count w ->
        nth (i + 7) (chronological_view w) 0 = nth i (chronological_view w) 0).
Proof.
  intros w buf i Hb Hi Hn Hlt.
  assert (Hnth : forall k : nat, Z.of_nat k < event_count w ->
            nth k (chronological_view w) 0 = buf (chronological_slot w (Z.of_nat k))).
  { intros k Hk. unfold chronological_view. rewrite Hb.
    rewrite nth_view_loop by lia. reflexivity. }
  destruct (chronological_slot_saved w (Z.of_nat i) Hi (proj2 Hn) (Nat2Z.is_nonneg i))
    as [Hin Hper].
  split; [apply Hnth; exact Hlt | ]. split; [exact Hin | ].
  intros Hlt7. rewrite !Hnth by lia.
  rewrite Nat2Z.inj_add. change (Z.of_nat 7) with 7. rewrite Hper. reflexivity.
Qed.

Lemma chronological_view_seven_slots_witness :
  let w := mkWorld (Some (fun i => 100 + i)) 10 10 None true in
  nth 1 (chronological_view w) 0 = 86500
  /\ nth 1 (chronological_view w) 0 = (fun i => 100 + i) (chronological_slot w (Z.of_nat 1))
  /\ In (chronological_slot w (Z.of_nat 1)) saved_slots
  /\ (Z.of_nat 1 + 7 < event_count w ->
      nth (1 + 7) (chronological_view w) 0 = nth 1 (chronological_view w) 0).
Proof.
  split; [reflexivity | ].
  apply (chronological_view_seven_slots
           (mkWorld (Some (fun i => 100 + i)) 10 10 None true) (fun i => 100 + i) 1).
  - reflexivity.
  - cbn. lia.
  - cbn. unfold MAX_EVENTS. lia.
  - cbn. lia.
Defined.

(** ** The reports of load_data *)

Lemma read_header_none (bytes : list byte) :
  read_header bytes = None <-> (length bytes < 12)%nat.
Proof.
  unfold read_header. destruct (Nat.leb_spec 12 (length bytes)); split;
    intros H'; try discriminate; try reflexivity; lia.
Qed.

Lemma load_data_report (w : world) (buf : buffer) :
  event_buffer w = Some buf ->
  match data_file w with
  | None => snd (load_data w) = quiet
  | Some bytes =>
      match read_header bytes with
      | None => snd (load_data w) = err_read_header
      | Some (header, _) =>
          if negb (magic header =? DATA_MAGIC) then
            snd (load_data w) = err_invalid_format
          else if negb (version header =? 1) then
            snd (load_data w) = err_unsupported_version (version header)
          else
            snd (load_data w) = err_alloc
            \/ exists short n, snd (load_data w) = loaded short n
      end
  end.
Proof.
  intros Hb. unfold load_data. rewrite Hb.
  destruct (data_file w) as [bytes | ]; [ | reflexivity].
  destruct (read_header bytes) as [[header body] | ]; [ | reflexivity].
  destruct (negb (magic header =? DATA_MAGIC)); [reflexivity | ].
  destruct (negb (version header =? 1)); [reflexivity | ].
  cbv zeta.
  match goal with |- context [if ?c <? 0 then _ else _] => destruct (c <? 0) end;
    [left; reflexivity | right].
  match goal with |- context [if ?c <=? MAX_EVENTS then _ else _] =>
    destruct (c <=? MAX_EVENTS) end; eexists; eexists; reflexivity.
Qed.

(** X4. The reports are exact.  With the buffer allocated, [load_data] stays
    silent only when there is no data file, reports a failed header read
    only for a file shorter than 12 bytes, and reports a format error only
    for a file whose header has a wrong magic or a version other than 1. *)
Theorem load_data_report_exact :
  forall (w : world) (buf : buffer),
    event_buffer w = Some buf ->
    (snd (load_data w) = quiet <-> data_file w = None)
    /\ (snd (load_data w) = err_read_header <->
        exists bytes, data_file w = Some bytes /\ (length bytes < 12)%nat)
    /\ (format_error (snd (load_data w)) = true <->
        exists bytes header body,
          data_file w = Some bytes
          /\ read_header bytes = Some (header, body)
          /\ (magic header <> DATA_MAGIC \/ version header <> 1)).
Proof.
  intros w buf Hb. pose proof (load_data_report w buf Hb) as R.
  destruct (data_file w) as [bytes | ] eqn:Ef.
  - destruct (read_header bytes) as [[header body] | ] eqn:Eh.
    + assert (Hlen : ~ (length bytes < 12)%nat).
      { intros H. apply read_header_none in H. congruence. }
      destruct (Z.eqb_spec (magic header) DATA_MAGIC) as [Em | Em]; cbn [negb] in R.
      * destruct (Z.eqb_spec (version header) 1) as [Ev | Ev]; cbn [negb] in R.
        -- assert (Hr : snd (load_data w) <> quiet
                        /\ snd (load_data w) <> err_read_header
                        /\ format_error (snd (load_data w)) = false).
           { destruct R as [-> | (s & n & ->)]; repeat split; discriminate. }
           destruct Hr as (H1 & H2 & H3).
           split; [split; [contradiction | discriminate] | ].
           split.
           ++ split; [contradiction | ]. intros (b & E & Hl).
              injection E as <-. contradiction.
           ++ rewrite H3. split; [discriminate | ].
              intros (b & h & bd & E & Eh' & Hbad). injection E as <-.
              rewrite Eh in Eh'. injection Eh' as <- <-.
              destruct Hbad; contradiction.
        -- rewrite R. split; [split; discriminate | ].
           split.
           ++ split; [discriminate | ]. intros (b & E & Hl).
              injection E as <-. contradiction.
           ++ split; [ | reflexivity]. intros _.
              exists bytes, header, body. auto.
      * rewrite R. split; [split; discriminate | ].
        split.
        -- split; [discriminate | ]. intros (b & E & Hl).
           injection E as <-. contradiction.
        -- split; [ | reflexivity]. intros _.
           exists bytes, header, body. auto.
    + rewrite R. split; [split; discriminate | ].
      split.
      * split; [ | reflexivity]. intros _. exists bytes.
        split; [reflexivity | ]. apply read_header_none. exact Eh.
      * split; [discriminate | ].
        intros (b & h & bd & E & Eh' & _). injection E as <-. congruence.
  - rewrite R. split; [split; reflexivity | ].
    split.
    + split; [discriminate | ]. intros (b & E & _). discriminate.
    + split; [discriminate | ]. intros (b & h & bd & E & _). discriminate.
Qed.

Lemma load_data_report_exact_witness :
  let w := fresh_world (fun _ => 0) (Some [Byte.x41; Byte.x50; Byte.x41]) true in
  (snd (load_data w) = quiet <-> data_file w = None)
  /\ (snd (load_data w) = err_read_header <->
      exists bytes, data_file w = Some bytes /\ (length bytes < 12)%nat)
  /\ (format_error (snd (load_data w)) = true <->
      exists bytes header body,
        data_file w = Some bytes
        /\ read_header bytes = Some (header, body)
        /\ (magic header <> DATA_MAGIC \/ version header <> 1)).
Proof.
  apply (load_data_report_exact
           (fresh_world (fun _ => 0) (Some [Byte.x41; Byte.x50; Byte.x41]) true)
           (fun _ => 0)).
  reflexivity.
Defined.

(** ** cleanup *)

Lemma in_close_loop (fds : Z -> Z) (fd : Z) (n : nat) :
  forall (i : Z) (table : list Z),
    In fd (close_loop fds n i table) <->
    In fd table /\ forall k, i <= k < i + Z.of_nat n -> fds k <> fd.
Proof.
  induction n as [| n IH]; intros i table; cbn [close_loop].
  - split; [intros H; split; [exact H | intros k Hk; lia] | intros [H _]; exact H].
  - rewrite IH. unfold close. split.
    + intros [Hin Hk]. apply in_remove in Hin. destruct Hin as [Hin Hne].
      split; [exact Hin | ]. intros k Hr.
      destruct (Z.eq_dec k i) as [-> | Hki]; [congruence | apply Hk; lia].
    + intros [Hin Hk]. split.
      * apply in_in_remove; [ | exact Hin]. intros E. apply (Hk i); [lia | congruence].
      * intros k Hr. apply Hk. lia.
Qed.

(** X9. What cleanup releases.  After [cleanup] the buffer pointer is NULL,
    no input device is counted, the data file is the one [save_data] leaves
    on the store as it was, every descriptor [input_fds[i]] with
    [i < num_input_fds] is closed, and every other open descriptor is still
    open; no descriptor is opened. *)
Theorem cleanup_releases :
  forall p : process,
    event_buffer (globals (cleanup p)) = None
    /\ num_input_fds (cleanup p) = 0
    /\ data_file (globals (cleanup p)) = data_file (save_data (globals p))
    /\ (forall fd : Z,
          In fd (open_descriptors (cleanup p)) <->
          In fd (open_descriptors p)
          /\ forall i, 0 <= i < num_input_fds p -> input_fds p i <> fd).
Proof.
  intros p. unfold cleanup.
  cbn [globals num_input_fds open_descriptors event_buffer data_file].
  split; [reflexivity | ]. split; [reflexivity | ]. split; [reflexivity | ].
  intros fd. rewrite in_close_loop. split.
  - intros [Hin Hk]. split; [exact Hin | ]. intros i Hi. apply Hk. lia.
  - intros [Hin Hk]. split; [exact Hin | ]. intros k Hr. apply Hk. lia.
Qed.

(** X10. After cleanup.  A second [cleanup] changes nothing (nothing is
    saved, closed or freed twice).  On the world that [cleanup] leaves,
    [calculate_apm_with_time] returns 0.0, [save_data] writes nothing and
    [load_data] refuses to load, each because of its NULL test, whereas
    [add_event], which has no such test, has no defined behaviour. *)
Theorem cleanup_is_final :
  forall (p : process) (minutes : Z) (now : time_t),
    cleanup (cleanup p) = cleanup p
    /\ calculate_apm_with_time minutes now (globals (cleanup p)) = S754_zero false
    /\ save_data (globals (cleanup p)) = globals (cleanup p)
    /\ load_data (globals (cleanup p)) = (globals (cleanup p), err_not_allocated)
    /\ add_event now (globals (cleanup p)) = None.
Proof.
  intros p minutes now. unfold cleanup.
  cbn [globals num_input_fds open_descriptors input_fds].
  repeat split.
Qed.

(** X11. Shutdown and restart.  When a process with a non-empty store and a
    writable data file runs [cleanup], and the next process allocates its
    buffer and runs [load_data], the new store has the count of the old one,
    its cursor equals that count, and its records from slot 0 on are the
    sequence [save_data] reconstructed from the old store. *)
Theorem cleanup_then_restart :
  forall (p : process) (buf mem : buffer) (wr : bool),
    event_buffer (globals p) = Some buf ->
    0 < event_count (globals p) <= MAX_EVENTS ->
    data_writable (globals p) = true ->
    Forall time_t_range (chronological_view (globals p)) ->
    exists w' : world,
      load_data (fresh_world mem (data_file (globals (cleanup p))) wr)
        = (w', loaded false (event_count (globals p)))
      /\ event_count w' = event_count (globals p)
      /\ event_index w' = event_count (globals p)
      /\ held_records w' = chronological_view (globals p).
Proof.
  intros p buf mem wr Hb Hn Hwr Hts.
  destruct (load_saved_file (globals p) buf mem wr Hb Hn Hwr Hts)
    as (w' & HL & _ & Hc & Hi & Hh).
  exists w'. unfold cleanup. cbn [globals data_file]. auto.
Qed.

Lemma cleanup_then_restart_witness :
  let p := mkProcess (mkWorld (Some (fun i => 100 + i)) 3 3 None true)
             (fun i => 4 + i) 2 [0; 1; 2; 3; 4; 5] in
  data_file (globals (cleanup p)) <> None
  /\ open_descriptors (cleanup p) = [0; 1; 2; 3]
  /\ exists w' : world,
       load_data (fresh_world (fun _ => 0) (data_file (globals (cleanup p))) true)
         = (w', loaded false (event_count (globals p)))
       /\ event_count w' = event_count (globals p)
       /\ event_index w' = event_count (globals p)
       /\ held_records w' = chronological_view (globals p).
Proof.
  split; [vm_compute; discriminate | ]. split; [reflexivity | ].
  apply (cleanup_then_restart
           (mkProcess (mkWorld (Some (fun i => 100 + i)) 3 3 None true)
              (fun i => 4 + i) 2 [0; 1; 2; 3; 4; 5])
           (fun i => 100 + i) (fun _ => 0) true).
  - reflexivity.
  - cbn. unfold MAX_EVENTS. lia.
  - reflexivity.
  - repeat constructor; unfold time_t_range; cbn; lia.
Defined.

(** ** apm_stats.c *)

Lemma view_events_array (records : list time_t) :
  view_loop (events_array records) (fun i => i) (length records) 0 = records.
Proof.
  apply nth_ext with (d := 0) (d' := 0).
  - apply length_view_loop.
  - intros k Hk. rewrite length_view_loop in Hk.
    rewrite nth_view_loop by exact Hk. unfold events_array.
    f_equal. lia.
Qed.

Lemma calculate_apm_from_data_count (records : list time_t) (minutes : Z)
    (now : time_t) :
  records <> [] ->
  calculate_apm_from_data (events_array records) (Z.of_nat (length records))
    minutes now =
    float_div
      (float_of_int (count_since (cutoff_time minutes now) records))
      (float_of_int minutes).
Proof.
  intros Hne. unfold calculate_apm_from_data.
  destruct (Z.eqb_spec (Z.of_nat (length records)) 0) as [E | _].
  - destruct records; [contradiction | cbn [length] in E; lia].
  - cbv zeta. rewrite count_loop_filter, Z.add_0_l, Nat2Z.id.
    rewrite view_events_array. reflexivity.
Qed.

Lemma calculate_apm_with_time_count (w : world) (buf : buffer)
    (minutes : Z) (now : time_t) :
  event_buffer w = Some buf ->
  0 < event_count w <= MAX_EVENTS ->
  calculate_apm_with_time minutes now w =
    float_div
      (float_of_int (count_since (cutoff_time minutes now) (held_records w)))
      (float_of_int minutes).
Proof.
  intros Hb Hn. unfold calculate_apm_with_time, held_records. rewrite Hb.
  destruct (Z.eqb_spec (event_count w) 0) as [E | _]; [lia | ].
  destruct (Z.leb_spec (event_count w) MAX_EVENTS) as [_ | E]; [ | lia].
  cbv zeta. rewrite count_loop_filter, Z.add_0_l. reflexivity.
Qed.

(** [stats_main] on a file with a good magic whose declared records are all
    there. *)
Lemma stats_main_image (v : Z) (ts : list time_t) (tail : list byte)
    (malloc_ok : Z -> bool) (clock : Z -> time_t) :
  ts <> [] ->
  Z.of_nat (length ts) <= INT_MAX ->
  Forall time_t_range ts ->
  malloc_ok (Z.of_nat (length ts) * 8) = true ->
  let rate minutes k :=
    float_div (float_of_int (count_since (cutoff_time minutes (clock k)) ts))
      (float_of_int minutes) in
  stats_main
    (Some (encode_header (mkFileHeader DATA_MAGIC v (Z.of_nat (length ts)))
           ++ flat_map encode_event ts ++ tail))
    malloc_ok clock =
    inr (mkStatsReport (rate 1 0) (rate 5 1) (rate 15 2) (rate 60 3)
           (rate (24 * 60) 4) (rate (7 * 24 * 60) 5)).
Proof.
  intros Hne Hlen Hts Hm rate. unfold stats_main.
  rewrite read_header_encode. cbn [magic version num_events].
  change (DATA_MAGIC mod 2 ^ 32 =? DATA_MAGIC) with true. cbn [negb].
  unfold INT_MAX in Hlen.
  rewrite (Z.mod_small (Z.of_nat (length ts)))
    by (change (2 ^ 32) with 4294967296; lia).
  rewrite Hm. cbn [negb]. rewrite Nat2Z.id.
  assert (Hread : read_events (length ts) (flat_map encode_event ts ++ tail) = ts).
  { destruct (Nat.lt_ge_cases (length tail) 8) as [Hshort | Hlong].
    - rewrite read_events_encode_tail by assumption. apply firstn_all.
    - clear - Hts. induction Hts as [| t ts Ht _ IH]; [reflexivity | ].
      cbn [length flat_map read_events]. rewrite <- app_assoc.
      assert (Hl : (8 <=? length (encode_event t ++ flat_map encode_event ts ++ tail))%nat
                   = true).
      { apply Nat.leb_le. unfold encode_event at 1.
        rewrite length_app, length_le_split. lia. }
      rewrite Hl.
      rewrite (firstn_app_length _ 8) by apply length_le_split.
      rewrite (skipn_app_length _ 8) by apply length_le_split.
      rewrite decode_encode_event by exact Ht. rewrite IH. reflexivity. }
  rewrite Hread, Z.eqb_refl. cbn [negb].
  rewrite to_int_small by (unfold int_range, INT_MIN, INT_MAX; lia).
  rewrite !calculate_apm_from_data_count by exact Hne. reflexivity.
Qed.

(** X12. The statistics tool agrees with the tracker.  On the file that
    [save_data] writes from a non-empty store, [apm_stats] succeeds, and
    each of the six rates it prints is the rate [calculate_apm_with_time]
    gives, for the same window and clock value, on the store that
    [load_data] builds from that file. *)
Theorem stats_main_agrees_with_tracker :
  forall (w : world) (buf mem : buffer) (wr : bool)
         (malloc_ok : Z -> bool) (clock : Z -> time_t),
    event_buffer w = Some buf ->
    0 < event_count w <= MAX_EVENTS ->
    data_writable w = true ->
    Forall time_t_range (chronological_view w) ->
    malloc_ok (event_count w * 8) = true ->
    let file := data_file (save_data w) in
    let w' := fst (load_data (fresh_world mem file wr)) in
    stats_main file malloc_ok clock =
      inr (mkStatsReport
             (calculate_apm_with_time 1 (clock 0) w')
             (calculate_apm_with_time 5 (clock 1) w')
             (calculate_apm_with_time 15 (clock 2) w')
             (calculate_apm_with_time 60 (clock 3) w')
             (calculate_apm_with_time (24 * 60) (clock 4) w')
             (calculate_apm_with_time (7 * 24 * 60) (clock 5) w')).
Proof.
  intros w buf mem wr malloc_ok clock Hb Hn Hwr Hts Hm file w'.
  destruct (load_saved_file w buf mem wr Hb Hn Hwr Hts)
    as (w1 & HL & Hb1 & Hc1 & _ & Hh1).
  assert (Ew : w' = w1) by (unfold w', file; rewrite HL; reflexivity).
  destruct (event_buffer w1) as [buf1 | ] eqn:Eb1; [ | contradiction].
  assert (Hn1 : 0 < event_count w1 <= MAX_EVENTS) by lia.
  rewrite Ew, !(calculate_apm_with_time_count w1 buf1) by assumption.
  rewrite Hh1.
  assert (Hlen : Z.of_nat (length (chronological_view w)) = event_count w)
    by (apply (length_chronological_view w buf Hb); lia).
  unfold file. rewrite (save_data_writes w buf Hb) by (trivial; lia).
  unfold file_image.
  rewrite <- (app_nil_r (flat_map encode_event (chronological_view w))).
  rewrite <- Hlen.
  apply stats_main_image.
  - intros E. rewrite E in Hlen. cbn [length] in Hlen. lia.
  - rewrite Hlen. machine_range.
  - exact Hts.
  - rewrite Hlen. exact Hm.
Qed.

Lemma stats_main_agrees_with_tracker_witness :
  let w := mkWorld (Some (fun i => 1000 - i)) 3 3 None true in
  let file := data_file (save_data w) in
  let w' := fst (load_data (fresh_world (fun _ => 0) file true)) in
  calculate_apm_with_time 1 1000 w' = float_of_int 1
  /\ stats_main file (fun _ => true) (fun _ => 1000) =
       inr (mkStatsReport
              (calculate_apm_with_time 1 1000 w')
              (calculate_apm_with_time 5 1000 w')
              (calculate_apm_with_time 15 1000 w')
              (calculate_apm_with_time 60 1000 w')
              (calculate_apm_with_time (24 * 60) 1000 w')
              (calculate_apm_with_time (7 * 24 * 60) 1000 w')).
Proof.
  split; [vm_compute; reflexivity | ].
  apply (stats_main_agrees_with_tracker
           (mkWorld (Some (fun i => 1000 - i)) 3 3 None true)
           (fun i => 1000 - i) (fun _ => 0) true (fun _ => true) (fun _ => 1000)).
  - reflexivity.
  - cbn. unfold MAX_EVENTS. lia.
  - reflexivity.
  - repeat constructor; unfold time_t_range; cbn; lia.
  - reflexivity.
Defined.

(** X13. The two readers on a truncated file.  When the file declares more
    records than it holds, [apm_stats] gives up with "Cannot read events",
    while [load_data] loads the whole records that are there. *)
Theorem stats_main_rejects_truncated :
  forall (w : world) (buf : buffer) (declared : Z) (ts : list time_t)
         (tail : list byte) (malloc_ok : Z -> bool) (clock : Z -> time_t),
    event_buffer w = Some buf ->
    data_file w =
      Some (encode_header (mkFileHeader DATA_MAGIC 1 declared)
            ++ flat_map encode_event ts ++ tail) ->
    declared <= INT_MAX ->
    Forall time_t_range ts ->
    (length tail < 8)%nat ->
    Z.of_nat (length ts) < Z.min declared MAX_EVENTS ->
    malloc_ok (declared * 8) = true ->
    stats_main (data_file w) malloc_ok clock = inl cannot_read_events
    /\ exists w' : world,
         load_data w = (w', loaded true (Z.of_nat (length ts)))
         /\ held_records w' = ts.
Proof.
  intros w buf declared ts tail malloc_ok clock Hb Hf Hd Hts Htail Hshort Hm.
  split.
  - rewrite Hf. unfold stats_main.
    rewrite read_header_encode. cbn [magic version num_events].
    change (DATA_MAGIC mod 2 ^ 32 =? DATA_MAGIC) with true. cbn [negb].
    unfold INT_MAX in Hd.
    rewrite (Z.mod_small declared) by (change (2 ^ 32) with 4294967296; lia).
    rewrite Hm. cbn [negb].
    rewrite read_events_encode_tail by assumption.
    rewrite firstn_all2 by lia.
    destruct (Z.eqb_spec (Z.of_nat (length ts)) declared) as [E | _]; [lia | ].
    reflexivity.
  - pose proof (load_data_body w buf declared ts tail Hb Hf) as L.
    cbv zeta in L.
    replace (Z.min (Z.min declared MAX_EVENTS) (Z.of_nat (length ts)))
      with (Z.of_nat (length ts)) in L by lia.
    assert (Hflag : (Z.of_nat (length ts) <? Z.min declared MAX_EVENTS) = true)
      by (apply Z.ltb_lt; exact Hshort).
    rewrite Hflag, firstn_all2 in L by lia.
    rewrite L by (trivial; lia).
    eexists. split; [reflexivity | ]. apply held_records_loaded. reflexivity.
Qed.

Lemma stats_main_rejects_truncated_witness :
  let bytes := encode_header (mkFileHeader DATA_MAGIC 1 3)
               ++ flat_map encode_event [10; 20] ++ [Byte.x1e; Byte.x00] in
  let w := fresh_world (fun _ => 0) (Some bytes) true in
  stats_main (data_file w) (fun _ => true) (fun _ => 1000) = inl cannot_read_events
  /\ exists w' : world,
       load_data w = (w', loaded true (Z.of_nat (length [10; 20])))
       /\ held_records w' = [10; 20].
Proof.
  apply (stats_main_rejects_truncated
           (fresh_world (fun _ => 0)
              (Some (encode_header (mkFileHeader DATA_MAGIC 1 3)
                     ++ flat_map encode_event [10; 20] ++ [Byte.x1e; Byte.x00]))
              true)
           (fun _ => 0) 3 [10; 20] [Byte.x1e; Byte.x00]
           (fun _ => true) (fun _ => 1000)).
  - reflexivity.
  - reflexivity.
  - unfold INT_MAX. lia.
  - repeat constructor; unfold time_t_range; lia.
  - cbn. lia.
  - cbn. unfold MAX_EVENTS. lia.
  - reflexivity.
Defined.

(** X14. The header checks of the statistics tool.  [apm_stats] never looks
    at the version: two files that differ in the version field only get the
    same answer, so a file that [load_data] refuses for its version is
    still reported on.  A magic other than 0x00415041 is refused. *)
Theorem stats_main_header_checks :
  forall (m v v' n : Z) (body : list byte)
         (malloc_ok : Z -> bool) (clock : Z -> time_t),
    stats_main (Some (encode_header (mkFileHeader m v n) ++ body)) malloc_ok clock
    = stats_main (Some (encode_header (mkFileHeader m v' n) ++ body)) malloc_ok clock
    /\ (m mod 2 ^ 32 <> DATA_MAGIC ->
        stats_main (Some (encode_header (mkFileHeader m v n) ++ body)) malloc_ok clock
        = inl invalid_data_file_format).
Proof.
  intros m v v' n body malloc_ok clock. unfold stats_main.
  rewrite !read_header_encode. cbn [magic version num_events].
  split; [reflexivity | ].
  intros Hm. destruct (Z.eqb_spec (m mod 2 ^ 32) DATA_MAGIC); [contradiction | ].
  reflexivity.
Qed.

(** ** The events that count as actions *)

Lemma is_action_press (EV_KEY BTN_LEFT : Z) (e : input_event) :
  is_action EV_KEY BTN_LEFT e = (ev_type e =? EV_KEY) && (ev_value e =? 1).
Proof.
  unfold is_action.
  destruct (ev_type e =? EV_KEY), (ev_code e =? BTN_LEFT), (ev_value e =? 1);
    reflexivity.
Qed.

Lemma process_events_add_events (EV_KEY BTN_LEFT : Z)
    (events : list (input_event * time_t)) :
  forall w : world,
    process_events EV_KEY BTN_LEFT events w =
      add_events
        (map snd
           (filter (fun p => (ev_type (fst p) =? EV_KEY) && (ev_value (fst p) =? 1))
              events))
        w.
Proof.
  induction events as [| [e now] rest IH]; intros w; [reflexivity | ].
  cbn [process_events filter fst]. rewrite is_action_press.
  destruct ((ev_type e =? EV_KEY) && (ev_value e =? 1)).
  - cbn [map snd add_events]. destruct (add_event now w); [apply IH | reflexivity].
  - apply IH.
Qed.

(** X15. What the main loop counts.  An input event is recorded exactly
    when its type is [EV_KEY] and its value is 1, whatever its code: the
    clause on [BTN_LEFT] adds nothing, releases (value 0), key repeats
    (value 2) and events of other types are skipped.  On a valid store a
    batch of events is processed without fault and raises the count by the
    number of such presses, up to [MAX_EVENTS]. *)
Theorem process_events_counts_presses :
  forall (EV_KEY BTN_LEFT : Z) (events : list (input_event * time_t)) (w : world),
    store_ok w ->
    let presses :=
      filter (fun p => (ev_type (fst p) =? EV_KEY) && (ev_value (fst p) =? 1)) events in
    exists w' : world,
      process_events EV_KEY BTN_LEFT events w = Some w'
      /\ process_events EV_KEY BTN_LEFT events w = add_events (map snd presses) w
      /\ store_ok w'
      /\ event_count w' =
           Z.min (event_count w + Z.of_nat (length presses)) MAX_EVENTS.
Proof.
  intros EV_KEY BTN_LEFT events w Hok presses.
  destruct (add_events_store_ok (map snd presses) w Hok)
    as (w' & H & Hok' & Hc & _).
  exists w'. rewrite process_events_add_events. fold presses.
  rewrite length_map in Hc. auto.
Qed.

Lemma process_events_counts_presses_witness :
  let w := fresh_world (fun _ => 0) None true in
  let events :=
    [(mkInputEvent 1 30 1, 100); (mkInputEvent 1 30 2, 100);
     (mkInputEvent 1 30 0, 101); (mkInputEvent 2 0 5, 101);
     (mkInputEvent 1 273 1, 102)] in
  let presses :=
    filter (fun p => (ev_type (fst p) =? 1) && (ev_value (fst p) =? 1)) events in
  store_ok w
  /\ map snd presses = [100; 102]
  /\ exists w' : world,
       process_events 1 272 events w = Some w'
       /\ process_events 1 272 events w = add_events (map snd presses) w
       /\ store_ok w'
       /\ event_count w' =
            Z.min (event_count w + Z.of_nat (length presses)) MAX_EVENTS.
Proof.
  assert (Hok : store_ok (fresh_world (fun _ => 0) None true)).
  { unfold store_ok. cbn. split; [discriminate | ]. split; [reflexivity | ].
    unfold MAX_EVENTS. lia. }
  split; [exact Hok | ]. split; [reflexivity | ].
  apply (process_events_counts_presses 1 272
           [(mkInputEvent 1 30 1, 100); (mkInputEvent 1 30 2, 100);
            (mkInputEvent 1 30 0, 101); (mkInputEvent 2 0 5, 101);
            (mkInputEvent 1 273 1, 102)]
           (fresh_world (fun _ => 0) None true) Hok).
Defined.

(** ** The history ring of main.c *)

Lemma history_update_effective (h : History.APMHistory) (value : spec_float)
    (now : time_t) (iv : Z) (vs : list spec_float) :
  iv <= to_time_t (now - History.last_update h) ->
  History.holds_values h vs ->
  History.holds_values (History.update_apm_history h value now iv) (vs ++ [value])
  /\ History.last_update (History.update_apm_history h value now iv) = now.
Proof.
  intros Hiv (Hi & Hc & Hd). unfold History.update_apm_history.
  destruct (Z.leb_spec iv (to_time_t (now - History.last_update h))) as [_ | E];
    [ | lia].
  cbv zeta. split; [ | reflexivity].
  unfold History.holds_values, History.HISTORY_SIZE in *.
  cbn [History.index History.count History.data].
  rewrite length_app. cbn [length]. rewrite Nat2Z.inj_add. change (Z.of_nat 1) with 1.
  set (n := Z.of_nat (length vs)) in *.
  assert (Hn : 0 <= n) by (unfold n; lia).
  pose proof (Z.mod_pos_bound n 60 ltac:(lia)) as Hm.
  split.
  { rewrite Hi, Z.rem_mod_nonneg by lia. apply Z.add_mod_idemp_l. lia. }
  split.
  { rewrite Hc. destruct (Z.ltb_spec (Z.min n 60) 60); lia. }
  intros i Hlt. rewrite rev_app_distr. cbn [rev app].
  replace (n + 1 - 1 - Z.of_nat i) with (n - Z.of_nat i) by lia.
  destruct i as [| i].
  - change (Z.of_nat 0) with 0. rewrite Z.sub_0_r, Hi, Z.eqb_refl. reflexivity.
  - cbn [nth].
    assert (Hne : (n - Z.of_nat (S i)) mod 60 <> n mod 60).
    { rewrite Nat2Z.inj_succ in *. intros E.
      pose proof (Z.div_mod n 60 ltac:(lia)) as D1.
      pose proof (Z.div_mod (n - Z.succ (Z.of_nat i)) 60 ltac:(lia)) as D2.
      rewrite E in D2. lia. }
    rewrite Hi. destruct (Z.eqb_spec ((n - Z.of_nat (S i)) mod 60) (n mod 60));
      [contradiction | ].
    rewrite <- Hd by lia. f_equal. f_equal. lia.
Qed.

Lemma history_run_updates (iv : Z) (calls : list (spec_float * time_t)) :
  forall (h : History.APMHistory) (vs : list spec_float),
    History.holds_values h vs ->
    History.spaced iv (History.last_update h) calls ->
    History.holds_values (History.run_updates iv calls h) (vs ++ map fst calls).
Proof.
  induction calls as [| [value now] rest IH]; intros h vs Hh Hs.
  - cbn [map History.run_updates fold_left]. rewrite app_nil_r. exact Hh.
  - cbn [History.spaced] in Hs. destruct Hs as [Hiv Hrest].
    destruct (history_update_effective h value now iv vs Hiv Hh) as [Hh' Hl'].
    unfold History.run_updates in *. cbn [fold_left map fst snd].
    replace (vs ++ value :: map fst rest) with ((vs ++ [value]) ++ map fst rest)
      by (rewrite <- app_assoc; reflexivity).
    apply IH; [exact Hh' | ]. rewrite Hl'. exact Hrest.
Qed.

Lemma nth_graph_loop (h : History.APMHistory) (d : spec_float) (n : nat) :
  forall (k : nat) (i : Z),
    (k < n)%nat ->
    nth k (History.graph_loop h n i) d
    = History.data h (History.graph_slot h (i + Z.of_nat k)).
Proof.
  induction n as [| n IH]; intros k i Hk; [lia | ].
  cbn [History.graph_loop]. destruct k as [| k].
  - cbn [nth]. f_equal. f_equal. lia.
  - cbn [nth]. rewrite IH by lia. f_equal. f_equal. lia.
Qed.

Lemma length_graph_loop (h : History.APMHistory) (n : nat) :
  forall i, length (History.graph_loop h n i) = n.
Proof.
  induction n as [| n IH]; intros i; cbn [History.graph_loop length];
    [ | rewrite IH]; reflexivity.
Qed.

Lemma graph_values_holds (h : History.APMHistory) (vs : list spec_float) :
  History.holds_values h vs ->
  History.graph_values h = firstn 60 (rev vs).
Proof.
  intros (Hi & Hc & Hd). unfold History.graph_values, History.GRAPH_WIDTH.
  unfold History.HISTORY_SIZE in *.
  set (n := Z.of_nat (length vs)) in *.
  assert (Hn : 0 <= n) by (unfold n; lia).
  apply nth_ext with (d := S754_zero false) (d' := S754_zero false).
  - rewrite length_graph_loop, length_firstn, length_rev. rewrite Hc. lia.
  - intros k Hk. rewrite length_graph_loop in Hk.
    rewrite nth_graph_loop by exact Hk.
    assert (Hk60 : (k < 60)%nat) by lia.
    rewrite nth_firstn.
    assert (Hb : (k <? 60)%nat = true) by (apply Nat.ltb_lt; exact Hk60).
    rewrite Hb, <- Hd by lia.
    f_equal. unfold History.graph_slot, History.HISTORY_SIZE. rewrite Hi.
    pose proof (Z.mod_pos_bound n 60 ltac:(lia)) as Hm.
    rewrite Z.rem_mod_nonneg by lia.
    replace (n mod 60 - 1 - (0 + Z.of_nat k) + 60)
      with ((n mod 60 - (1 + Z.of_nat k)) + 1 * 60) by lia.
    rewrite Z_mod_plus_full, Zminus_mod_idemp_l. f_equal. lia.
Qed.

Lemma holds_values_init (name : list byte) :
  History.holds_values (History.init_apm_history name) [].
Proof.
  unfold History.holds_values. cbn. repeat split. intros i Hi. lia.
Qed.

(** X16. The graph shows the newest values first.  Starting from
    [init_apm_history], after calls of [update_apm_history] that each come
    at least [update_interval] after the previous one, the values
    [draw_apm_graph] reads, column by column, are the values passed to
    those calls from the newest backwards, at most 60 of them: the ring
    wraps at [HISTORY_SIZE] and drops the oldest values first. *)
Theorem history_graph_newest_first :
  forall (name : list byte) (update_interval : Z)
         (calls : list (spec_float * time_t)),
    History.spaced update_interval 0 calls ->
    History.graph_values
      (History.run_updates update_interval calls (History.init_apm_history name))
    = firstn 60 (rev (map fst calls)).
Proof.
  intros name iv calls Hs.
  apply graph_values_holds.
  apply (history_run_updates iv calls (History.init_apm_history name) []
           (holds_values_init name)).
  exact Hs.
Qed.

Lemma history_graph_newest_first_witness :
  let calls := [(float_of_int 3, 10); (float_of_int 7, 11); (float_of_int 5, 13)] in
  History.spaced 1 0 calls
  /\ History.graph_values
       (History.run_updates 1 calls (History.init_apm_history []))
     = [float_of_int 5; float_of_int 7; float_of_int 3]
  /\ History.graph_values
       (History.run_updates 1 calls (History.init_apm_history []))
     = firstn 60 (rev (map fst calls)).
Proof.
  assert (Hs : History.spaced 1 0
                 [(float_of_int 3, 10); (float_of_int 7, 11); (float_of_int 5, 13)]).
  { cbn. repeat split; lia. }
  split; [exact Hs | ]. split; [vm_compute; reflexivity | ].
  apply (history_graph_newest_first []
           1 [(float_of_int 3, 10); (float_of_int 7, 11); (float_of_int 5, 13)] Hs).
Defined.

Lemma history_ok_init (name : list byte) : history_ok (History.init_apm_history name).
Proof. unfold history_ok, History.HISTORY_SIZE. cbn. lia. Qed.

Lemma history_ok_update (h : History.APMHistory) (value : spec_float)
    (now : time_t) (iv : Z) :
  history_ok h -> history_ok (History.update_apm_history h value now iv).
Proof.
  unfold history_ok, History.update_apm_history, History.HISTORY_SIZE.
  intros (Hi & Hc & Hic).
  destruct (iv <=? to_time_t (now - History.last_update h)); [ | auto].
  cbv zeta. cbn [History.index History.count].
  rewrite Z.rem_mod_nonneg by lia.
  pose proof (Z.mod_pos_bound (History.index h + 1) 60 ltac:(lia)) as Hm.
  destruct (Z.ltb_spec (History.count h) 60) as [Hlt | Hge].
  - split; [exact Hm | ]. split; [lia | ].
    intros Hlt'. rewrite (Hic Hlt). apply Z.mod_small. lia.
  - split; [exact Hm | ]. split; [lia | ]. lia.
Qed.

Lemma history_ok_run (iv : Z) (calls : list (spec_float * time_t)) :
  forall h, history_ok h -> history_ok (History.run_updates iv calls h).
Proof.
  unfold History.run_updates.
  induction calls as [| c rest IH]; intros h Hh; cbn [fold_left]; [exact Hh | ].
  apply IH. apply history_ok_update. exact Hh.
Qed.

(** X17. The history stays inside its array.  After any calls of
    [update_apm_history] on a history made by [init_apm_history], the write
    position is between 0 and 59, the count between 0 and 60, the position
    equals the count until the ring is full, every column of the graph is
    read from a slot between 0 and 59, and the label has at most 31
    characters. *)
Theorem history_stays_in_bounds :
  forall (name : list byte) (update_interval : Z)
         (calls : list (spec_float * time_t)) (i : Z),
    let h := History.run_updates update_interval calls
               (History.init_apm_history name) in
    history_ok h
    /\ (0 <= i < History.GRAPH_WIDTH ->
        0 <= History.graph_slot h i < History.HISTORY_SIZE)
    /\ (length (History.label h) <= 31)%nat.
Proof.
  intros name iv calls i h.
  assert (Hok : history_ok h)
    by (apply history_ok_run, history_ok_init).
  assert (Hlabel : forall cs g,
            (length (History.label g) <= 31)%nat ->
            (length (History.label (History.run_updates iv cs g)) <= 31)%nat).
  { unfold History.run_updates.
    induction cs as [| c rest IH]; intros g Hg; cbn [fold_left]; [exact Hg | ].
    apply IH. unfold History.update_apm_history.
    destruct (iv <=? to_time_t (snd c - History.last_update g)); exact Hg. }
  split; [exact Hok | ]. split.
  - intros Hi. destruct Hok as (Hidx & _). unfold History.graph_slot.
    unfold History.GRAPH_WIDTH, History.HISTORY_SIZE in *.
    rewrite Z.rem_mod_nonneg by lia. apply Z.mod_pos_bound. lia.
  - apply Hlabel. unfold History.init_apm_history. cbn [History.label].
    rewrite length_firstn. lia.
Qed.

(** ** The maximum kept for scaling *)

Lemma SFltb_key (x y : spec_float) :
  x <> S754_nan -> y <> S754_nan ->
  (SFltb x y = true <-> key_lt (float_key x) (float_key y)).
Proof.
  intros Hx Hy. unfold SFltb, SFcompare, key_lt, float_key.
  destruct x as [sx | sx | | sx mx ex], y as [sy | sy | | sy my ey];
    try contradiction;
    try (destruct sx); try (destruct sy);
    try (split; intros H; [try discriminate H; lia | try reflexivity; lia]).
  - change (Pos.compare_cont Eq mx my) with (Pos.compare mx my).
    destruct (Z.compare_spec ex ey), (Pos.compare_spec mx my); cbn [CompOpp];
      split; intros H'; try discriminate H'; try reflexivity; lia.
  - change (Pos.compare_cont Eq mx my) with (Pos.compare mx my).
    destruct (Z.compare_spec ex ey), (Pos.compare_spec mx my);
      split; intros H'; try discriminate H'; try reflexivity; lia.
Qed.

Lemma SFltb_nan_r (x : spec_float) : SFltb x S754_nan = false.
Proof. destruct x as [ | [ | ] | | ]; reflexivity. Qed.

Lemma SFltb_not_nan (x y : spec_float) : SFltb x y = true -> y <> S754_nan.
Proof. intros H E. rewrite E, SFltb_nan_r in H. discriminate. Qed.

Lemma SFltb_false_key (x y : spec_float) :
  x <> S754_nan ->
  (SFltb x y = false <-> y = S754_nan \/ ~ key_lt (float_key x) (float_key y)).
Proof.
  intros Hx. split.
  - intros H. destruct y as [sy | sy | | sy my ey]; [right | right | left; reflexivity | right];
      intros K; apply SFltb_key in K; try congruence; discriminate.
  - intros [-> | K]; [apply SFltb_nan_r | ].
    destruct (SFltb x y) eqn:E; [ | reflexivity].
    exfalso. apply K. apply SFltb_key; trivial. apply (SFltb_not_nan x). exact E.
Qed.

Lemma max_loop_bound (d : Z -> spec_float) (n : nat) :
  forall (i : Z) (m : spec_float),
    m <> S754_nan ->
    History.max_loop d n i m <> S754_nan
    /\ ~ key_lt (float_key (History.max_loop d n i m)) (float_key m)
    /\ forall k, i <= k < i + Z.of_nat n -> SFltb (History.max_loop d n i m) (d k) = false.
Proof.
  induction n as [| n IH]; intros i m Hm; cbn [History.max_loop].
  - split; [exact Hm | ]. split.
    + unfold key_lt. destruct (float_key m) as [[a b] c]. lia.
    + intros k Hk. lia.
  - set (m' := if SFltb m (d i) then d i else m).
    assert (Hm' : m' <> S754_nan).
    { unfold m'. destruct (SFltb m (d i)) eqn:E; [ | exact Hm].
      apply (SFltb_not_nan m). exact E. }
    assert (Hge : ~ key_lt (float_key m') (float_key m)).
    { unfold m'. destruct (SFltb m (d i)) eqn:E.
      - apply SFltb_key in E; [ | exact Hm | apply (SFltb_not_nan m); assumption].
        revert E. unfold key_lt.
        destruct (float_key m) as [[a b] c], (float_key (d i)) as [[a' b'] c']. lia.
      - unfold key_lt. destruct (float_key m) as [[a b] c]. lia. }
    assert (Hdi : d i = S754_nan \/ ~ key_lt (float_key m') (float_key (d i))).
    { unfold m'. destruct (SFltb m (d i)) eqn:E.
      - right. unfold key_lt. destruct (float_key (d i)) as [[a b] c]. lia.
      - apply SFltb_false_key; assumption. }
    destruct (IH (i + 1) m' Hm') as (Hr & Hrm & Hrk).
    set (r := History.max_loop d n (i + 1) m') in *.
    split; [exact Hr | ]. split.
    + revert Hrm Hge. unfold key_lt.
      destruct (float_key r) as [[a b] c], (float_key m') as [[a' b'] c'],
        (float_key m) as [[a'' b''] c'']. lia.
    + intros k Hk. destruct (Z.eq_dec k i) as [-> | Hne]; [ | apply Hrk; lia].
      apply SFltb_false_key; [exact Hr | ].
      destruct Hdi as [E | K]; [left; exact E | right].
      revert Hrm K. unfold key_lt.
      destruct (float_key r) as [[a b] c], (float_key m') as [[a' b'] c'],
        (float_key (d i)) as [[a'' b''] c'']. lia.
Qed.

Lemma max_bounds_update (h : History.APMHistory) (value : spec_float)
    (now : time_t) (iv : Z) :
  max_bounds h -> max_bounds (History.update_apm_history h value now iv).
Proof.
  intros Hh. unfold History.update_apm_history.
  destruct (iv <=? to_time_t (now - History.last_update h)); [ | exact Hh].
  cbv zeta. unfold max_bounds.
  cbn [History.max_value History.count History.data].
  match goal with |- context [History.max_loop ?d ?n 0 ?m] =>
    destruct (max_loop_bound d n 0 m) as (Hr & Hrm & Hrk); [discriminate | ];
    set (r := History.max_loop d n 0 m) in *
  end.
  split; [exact Hr | ]. split.
  - apply SFltb_false_key; [exact Hr | ]. right. exact Hrm.
  - intros i Hi. apply Hrk. lia.
Qed.

(** X18. The scale of the graph.  After any calls of [update_apm_history]
    on a history made by [init_apm_history], [max_value] is not a NaN, is not
    below 1.0, and no value among [data[0 .. count-1]] compares greater than
    it: the test [data[i] > max_value] is false for every held value. *)
Theorem history_max_value_bounds :
  forall (name : list byte) (update_interval : Z)
         (calls : list (spec_float * time_t)) (i : Z),
    let h := History.run_updates update_interval calls
               (History.init_apm_history name) in
    History.max_value h <> S754_nan
    /\ SFltb (History.max_value h) (float_of_int 1) = false
    /\ (0 <= i < History.count h ->
        SFltb (History.max_value h) (History.data h i) = false).
Proof.
  intros name iv calls i h.
  assert (Hrun : forall cs g, max_bounds g -> max_bounds (History.run_updates iv cs g)).
  { unfold History.run_updates.
    induction cs as [| c rest IH]; intros g Hg; cbn [fold_left]; [exact Hg | ].
    apply IH. apply max_bounds_update. exact Hg. }
  assert (Hinit : max_bounds (History.init_apm_history name)).
  { unfold max_bounds. cbn [History.init_apm_history History.max_value History.count].
    split; [vm_compute; discriminate | ]. split; [vm_compute; reflexivity | ].
    intros k Hk. lia. }
  destruct (Hrun calls _ Hinit) as (H1 & H2 & H3).
  split; [exact H1 | ]. split; [exact H2 | ]. intros Hi. apply H3. exact Hi.
Qed.

(** ** find_input_devices *)

Lemma scan_devices_spec (EV_KEY EV_REL PATH_MAX : Z) (entries : list device_entry) :
  forall (fds : Z -> Z) (num : Z) (table : list Z),
    0 <= num <= MAX_DEVICES ->
    let '(fds', num', table') :=
      scan_devices EV_KEY EV_REL PATH_MAX entries fds num table in
    num <= num' <= MAX_DEVICES
    /\ (forall i, i < num \/ num' <= i -> fds' i = fds i)
    /\ (forall i, num <= i < num' ->
          exists e, In e entries /\ fds' i = open_result e
                    /\ monitorable EV_KEY EV_REL e)
    /\ (forall fd, In fd table' ->
          In fd table \/ exists i, num <= i < num' /\ fds' i = fd).
Proof.
  induction entries as [| e rest IH]; intros fds num table Hnum.
  - cbn [scan_devices]. split; [lia | ]. split; [reflexivity | ].
    split; [intros i Hi; lia | auto].
  - cbn [scan_devices].
    assert (Hskip :
      let '(fds', num', table') :=
        scan_devices EV_KEY EV_REL PATH_MAX rest fds num table in
      num <= num' <= MAX_DEVICES
      /\ (forall i, i < num \/ num' <= i -> fds' i = fds i)
      /\ (forall i, num <= i < num' ->
            exists e0, In e0 (e :: rest) /\ fds' i = open_result e0
                       /\ monitorable EV_KEY EV_REL e0)
      /\ (forall fd, In fd table' ->
            In fd table \/ exists i, num <= i < num' /\ fds' i = fd)).
    { specialize (IH fds num table Hnum).
      destruct (scan_devices EV_KEY EV_REL PATH_MAX rest fds num table)
        as [[fds' num'] table'].
      destruct IH as (H1 & H2 & H3 & H4). repeat split; try apply H1; auto.
      intros i Hi. destruct (H3 i Hi) as (e0 & Hin & He). exists e0.
      split; [right; exact Hin | exact He]. }
    assert (Hclosed : forall fd,
      let '(fds', num', table') :=
        scan_devices EV_KEY EV_REL PATH_MAX rest fds num (close fd (fd :: table)) in
      num <= num' <= MAX_DEVICES
      /\ (forall i, i < num \/ num' <= i -> fds' i = fds i)
      /\ (forall i, num <= i < num' ->
            exists e0, In e0 (e :: rest) /\ fds' i = open_result e0
                       /\ monitorable EV_KEY EV_REL e0)
      /\ (forall fd0, In fd0 table' ->
            In fd0 table \/ exists i, num <= i < num' /\ fds' i = fd0)).
    { intros fd. specialize (IH fds num (close fd (fd :: table)) Hnum).
      destruct (scan_devices EV_KEY EV_REL PATH_MAX rest fds num
                  (close fd (fd :: table))) as [[fds' num'] table'].
      destruct IH as (H1 & H2 & H3 & H4). repeat split; try apply H1; auto.
      - intros i Hi. destruct (H3 i Hi) as (e0 & Hin & He). exists e0.
        split; [right; exact Hin | exact He].
      - intros fd0 Hin. destruct (H4 fd0 Hin) as [Ht | Hex]; [left | right; exact Hex].
        unfold close in Ht. apply in_remove in Ht. destruct Ht as [Ht Hne].
        destruct Ht as [E | Ht]; [congruence | exact Ht]. }
    destruct (Z.ltb_spec num MAX_DEVICES) as [Hlt | Hge].
    2:{ split; [lia | ]. split; [reflexivity | ].
        split; [intros i Hi; lia | auto]. }
    destruct (starts_with event_prefix (d_name e)) eqn:Epre; [ | exact Hskip].
    destruct (PATH_MAX <=? 11 + Z.of_nat (length (d_name e))); [exact Hskip | ].
    destruct (Z.ltb_spec (open_result e) 0) as [Hneg | Hpos]; [exact Hskip | ].
    cbv zeta.
    destruct (evbit e) as [bits | ] eqn:Ebits; [ | apply Hclosed].
    destruct (monitored_capability EV_KEY EV_REL bits) eqn:Ecap; [ | apply Hclosed].
    assert (Hnum1 : 0 <= num + 1 <= MAX_DEVICES) by lia.
    specialize (IH (set_fd fds num (open_result e)) (num + 1)
                  (open_result e :: table) Hnum1).
    destruct (scan_devices EV_KEY EV_REL PATH_MAX rest
                (set_fd fds num (open_result e)) (num + 1) (open_result e :: table))
      as [[fds' num'] table'].
    destruct IH as (H1 & H2 & H3 & H4).
    assert (Hkept : fds' num = open_result e).
    { rewrite H2 by lia. unfold set_fd. rewrite Z.eqb_refl. reflexivity. }
    split; [lia | ]. split; [ | split].
    + intros i Hi. rewrite H2 by lia. unfold set_fd.
      destruct (Z.eqb_spec i num); [lia | reflexivity].
    + intros i Hi. destruct (Z.eq_dec i num) as [-> | Hne].
      * exists e. split; [left; reflexivity | ]. split; [exact Hkept | ].
        unfold monitorable. split; [exact Epre | ]. split; [exact Hpos | ].
        exists bits. auto.
      * destruct (H3 i ltac:(lia)) as (e0 & Hin & He). exists e0.
        split; [right; exact Hin | exact He].
    + intros fd Hin. destruct (H4 fd Hin) as [[E | Ht] | (i & Hi & E)].
      * right. exists num. split; [lia | congruence].
      * left. exact Ht.
      * right. exists i. split; [lia | exact E].
Qed.

Lemma close_previous_table (n : nat) :
  forall (i : Z) (fds : Z -> Z) (table : list Z) (fd : Z),
    In fd (snd (close_previous n i fds table)) -> In fd table.
Proof.
  induction n as [| n IH]; intros i fds table fd; cbn [close_previous].
  - cbn [snd]. auto.
  - destruct (0 <=? fds i); intros H; apply IH in H; [ | exact H].
    unfold close in H. apply in_remove in H. apply H.
Qed.

(** X19. Device discovery.  Whatever [/dev/input] holds and whatever the
    process state, [find_input_devices] keeps at most [MAX_DEVICES] = 32
    descriptors, so it never writes past [input_fds]; it returns -1 or the
    number kept, never 0; every descriptor kept comes from an entry whose
    name starts with "event", that could be opened and that reports key or
    relative-axis events; and every descriptor open afterwards was open
    before or is one of those kept: what was opened and not kept is closed. *)
Theorem find_input_devices_spec :
  forall (EV_KEY EV_REL PATH_MAX : Z) (entries : list device_entry)
         (p : process) (i fd : Z),
    let p' := fst (find_input_devices EV_KEY EV_REL PATH_MAX (Some entries) p) in
    let r := snd (find_input_devices EV_KEY EV_REL PATH_MAX (Some entries) p) in
    0 <= num_input_fds p' <= MAX_DEVICES
    /\ (r = -1 /\ num_input_fds p' = 0 \/ 1 <= r /\ r = num_input_fds p')
    /\ (0 <= i < num_input_fds p' ->
        exists e, In e entries /\ input_fds p' i = open_result e
                  /\ monitorable EV_KEY EV_REL e)
    /\ (In fd (open_descriptors p') ->
        In fd (open_descriptors p)
        \/ exists k, 0 <= k < num_input_fds p' /\ input_fds p' k = fd)
    /\ globals p' = globals p.
Proof.
  intros EV_KEY EV_REL PATH_MAX entries p i fd. unfold find_input_devices.
  pose proof (close_previous_table (Z.to_nat (num_input_fds p)) 0 (input_fds p)
                (open_descriptors p)) as Hprev.
  destruct (close_previous (Z.to_nat (num_input_fds p)) 0 (input_fds p)
              (open_descriptors p)) as [fds0 table0].
  cbn [snd] in Hprev.
  pose proof (scan_devices_spec EV_KEY EV_REL PATH_MAX entries (reset_fds fds0) 0 table0)
    as Hscan.
  destruct (scan_devices EV_KEY EV_REL PATH_MAX entries (reset_fds fds0) 0 table0)
    as [[fds1 num1] table1].
  destruct Hscan as (H1 & H2 & H3 & H4); [unfold MAX_DEVICES; lia | ].
  cbn [fst snd num_input_fds input_fds open_descriptors globals].
  split; [lia | ]. split.
  { destruct (Z.eqb_spec num1 0); [left; auto | right; lia]. }
  split; [exact (H3 i) | ]. split; [ | reflexivity].
  intros Hin. destruct (H4 fd Hin) as [Ht | Hex]; [left; apply Hprev; exact Ht | right; exact Hex].
Qed.

(** ** What a run of add_event retains *)

(** X20. Recording from the empty store keeps two timestamps.  After any
    run of [add_event] calls from the empty store that ends with the
    timestamps [a] then [b], the calls have all returned, every slot other
    than 0 and 86400 still has the content it had at allocation, the slot
    under the cursor holds [a] and the other of the two slots holds [b]:
    whatever was recorded before [a] is no longer in the buffer. *)
Theorem add_events_retains_last_two :
  forall (earlier : list time_t) (a b : time_t)
         (mem : buffer) (file : option (list byte)) (wr : bool),
  exists (w' : world) (buf' : buffer),
    add_events (earlier ++ [a; b]) (fresh_world mem file wr) = Some w'
    /\ event_buffer w' = Some buf'
    /\ (event_index w' = 0 \/ event_index w' = 86400)
    /\ (forall j, j <> 0 -> j <> 86400 -> buf' j = mem j)
    /\ buf' (event_index w') = a
    /\ buf' (86400 - event_index w') = b.
Proof.
  intros earlier a b mem file wr.
  destruct (add_events_run earlier (fresh_world mem file wr) mem eq_refl
              (fresh_world_toggles mem file wr))
    as (w1 & buf1 & Hrun & Hb1 & Hsl & _ & Hidx & _).
  { machine_range. }
  cbn [event_index fresh_world] in Hidx.
  assert (Hc1 : cursor_toggles w1).
  { unfold cursor_toggles. rewrite Hidx.
    destruct (Z.even (Z.of_nat (length earlier))); [left | right]; reflexivity. }
  pose proof (add_event_step a w1 buf1 Hb1 Hc1) as Ha.
  set (w2 := set_events w1 (write_slot buf1 (event_index w1) a)
               (if event_count w1 <? MAX_EVENTS then event_count w1 + 1
                else event_count w1)
               (86400 - event_index w1)) in *.
  assert (Hc2 : cursor_toggles w2).
  { unfold cursor_toggles, w2. cbn [event_index set_events].
    destruct Hc1 as [E | E]; rewrite E; [right | left]; reflexivity. }
  pose proof (add_event_step b w2 _ eq_refl Hc2) as Hb.
  cbn [event_index event_count set_events w2] in Hb.
  eexists. eexists. split.
  { rewrite add_events_app, Hrun. cbn [add_events]. rewrite Ha, Hb. reflexivity. }
  cbn [event_buffer event_index set_events].
  split; [reflexivity | ]. split.
  { destruct Hc1 as [E | E]; rewrite E; [left | right]; reflexivity. }
  split.
  { intros j H0 H1. unfold write_slot.
    destruct Hc1 as [E | E]; rewrite E;
      cbn [Z.sub]; change (86400 - 0) with 86400; change (86400 - 86400) with 0;
      destruct (Z.eqb_spec j 86400), (Z.eqb_spec j 0); try contradiction;
      apply Hsl; assumption. }
  unfold write_slot.
  destruct Hc1 as [E | E]; rewrite E; split; reflexivity.
Qed.

(** ** Saving a store that was just loaded *)

(** X21. Load, then save.  A file of [n] records, [1 <= n <= 86400], is
    loaded into a freshly allocated store and the store is saved again.
    The sequence [save_data] writes is not the loaded one: its record [i] is
    the first record of the file when [i] is a multiple of 7, and otherwise
    the content slot [(i mod 7) * 86400] had at allocation, which the load
    did not write. *)
Theorem load_then_save_view :
  forall (mem : buffer) (wr : bool) (ts : list time_t) (i : nat),
    Forall time_t_range ts ->
    1 <= Z.of_nat (length ts) <= 86400 ->
    (i < length ts)%nat ->
    exists w' : world,
      load_data (fresh_world mem (Some (file_image (Z.of_nat (length ts)) ts)) wr)
        = (w', loaded false (Z.of_nat (length ts)))
      /\ held_records w' = ts
      /\ length (chronological_view w') = length ts
      /\ nth i (chronological_view w') 0 =
           (if Z.of_nat i mod 7 =? 0 then nth 0 ts 0
            else mem ((Z.of_nat i mod 7) * 86400)).
Proof.
  intros mem wr ts i Hts Hn Hi.
  set (n := Z.of_nat (length ts)) in *.
  set (w0 := fresh_world mem (Some (file_image n ts)) wr).
  pose proof (load_data_image w0 mem n ts eq_refl eq_refl) as L.
  cbv zeta in L. fold n in L.
  replace (Z.min n MAX_EVENTS) with n in L by (unfold MAX_EVENTS; lia).
  rewrite Z.min_id, Z.ltb_irrefl in L.
  rewrite firstn_all2 in L by (unfold n; lia).
  rewrite L by (trivial; machine_range).
  eexists. split; [reflexivity | ].
  split; [apply held_records_loaded; reflexivity | ].
  unfold chronological_view.
  cbn [event_buffer event_count set_events].
  replace (Z.min n MAX_EVENTS) with n by (unfold MAX_EVENTS; lia).
  split; [rewrite length_view_loop; unfold n; lia | ].
  rewrite nth_view_loop by (unfold n; lia).
  unfold chronological_slot, mod_MAX_EVENTS.
  cbn [event_index event_count set_events].
  replace (n - n + (0 + Z.of_nat i) + MAX_EVENTS) with (Z.of_nat i + 86400 * 7)
    by (unfold MAX_EVENTS; lia).
  rewrite Z.rem_mod_nonneg by lia. rewrite Z_mod_plus_full.
  pose proof (Z.mod_pos_bound (Z.of_nat i) 7 ltac:(lia)) as Hk.
  set (k := Z.of_nat i mod 7) in *.
  rewrite copy_loop_slot.
  destruct (Z.eqb_spec k 0) as [-> | Hk0].
  - change (0 * 24 * 60 * 60) with 0.
    destruct (Z.leb_spec 0 0), (Z.ltb_spec 0 (0 + Z.of_nat (Z.to_nat n)));
      cbn [andb]; try lia. reflexivity.
  - destruct (Z.leb_spec 0 (k * 24 * 60 * 60)),
      (Z.ltb_spec (k * 24 * 60 * 60) (0 + Z.of_nat (Z.to_nat n)));
      cbn [andb]; try lia. f_equal. lia.
Qed.

Lemma load_then_save_view_witness :
  let ts := [1700000000; 1700000001; 1700000002] in
  Forall time_t_range ts
  /\ exists w' : world,
       load_data (fresh_world (fun _ => -1) (Some (file_image (Z.of_nat (length ts)) ts)) true)
         = (w', loaded false (Z.of_nat (length ts)))
       /\ held_records w' = ts
       /\ length (chronological_view w') = length ts
       /\ nth 1 (chronological_view w') 0 =
            (if Z.of_nat 1 mod 7 =? 0 then nth 0 ts 0
             else (fun _ => -1) ((Z.of_nat 1 mod 7) * 86400)).
Proof.
  assert (Hts : Forall time_t_range [1700000000; 1700000001; 1700000002]).
  { repeat constructor; unfold time_t_range; lia. }
  split; [exact Hts | ].
  apply (load_then_save_view (fun _ => -1) true
           [1700000000; 1700000001; 1700000002] 1 Hts).
  - cbn. lia.
  - cbn. lia.
Defined.
